(** * Boxing Class Tracker: the account service of [server.js]

    A shallow embedding of the two Express handlers of [server.js],
    [POST /api/login] and [POST /api/register], together with what they
    rely on: JavaScript truthiness and strict equality on request fields,
    the four anchored regular expressions of the register handler, and the
    [users] collection behind the Mongoose model [User].

    Conventions.
    - A request field is a JavaScript value that is either [undefined] (the
      key is not in the JSON body) or a string; the interface fixes every
      field to be a string.
    - A string is a [string] of the Standard Library.  Every character class
      of the four patterns is a set of ASCII characters, so a character
      outside ASCII fails each of them whatever its encoding.
    - The collection is the list of its documents in insertion order:
      [findOne] returns the first document that matches, [save] validates
      the schema ([required: true] on the six paths) and appends.
    - A handler runs in a small state-and-exception monad over the
      collection and a log of the store operations it performed. *)

From Stdlib Require Import Ascii String List Bool Arith Lia.
Import ListNotations.
Open Scope string_scope.
Open Scope list_scope.

(* ================================================================== *)
(** ** JavaScript values of the request body *)

Inductive value : Type :=
| undefined
| str (s : string).

(** [!!v]: [undefined] and the empty string are falsy, any other string is
    truthy. *)
Definition truthy (v : value) : bool :=
  match v with
  | undefined => false
  | str EmptyString => false
  | str (String _ _) => true
  end.

(** [!v] *)
Definition falsy (v : value) : bool := negb (truthy v).

(** [ToString(v)], the coercion [RegExp.prototype.test] applies to its
    argument. *)
Definition ToString (v : value) : string :=
  match v with
  | undefined => "undefined"
  | str s => s
  end.

Definition value_eq_dec (a b : value) : {a = b} + {a <> b}.
Proof. decide equality. apply string_dec. Defined.

(** [a === b] *)
Definition strict_eq (a b : value) : bool :=
  if value_eq_dec a b then true else false.

(* ================================================================== *)
(** ** Regular expressions

    The four patterns of the register handler carry no flag and are
    anchored by [^] and [$]; they use character classes, literals,
    sequencing, one group, and the quantifiers [+], [*] and [{m,n}].  On such
    a pattern [test] answers whether the whole string belongs to the
    pattern's language, which is what [matches] decides, by derivatives. *)

Module RegExp.

(** An item of a character class: a single character, a range [lo-hi], or
    the escape [\w]. *)
Inductive item : Type :=
| one (c : ascii)
| range (lo hi : ascii)
| word.

Definition between (lo hi c : ascii) : bool :=
  Nat.leb (nat_of_ascii lo) (nat_of_ascii c)
  && Nat.leb (nat_of_ascii c) (nat_of_ascii hi).

(** [\w] is [[A-Za-z0-9_]]. *)
Definition is_word (c : ascii) : bool :=
  between "A" "Z" c || between "a" "z" c || between "0" "9" c
  || Ascii.eqb c "_".

Definition in_item (c : ascii) (i : item) : bool :=
  match i with
  | one x => Ascii.eqb c x
  | range lo hi => between lo hi c
  | word => is_word c
  end.

Definition in_class (cs : list item) (c : ascii) : bool :=
  existsb (in_item c) cs.

Inductive t : Type :=
| Void                       (* matches nothing; arises in derivatives *)
| Eps                        (* the empty pattern *)
| Set_ (cs : list item)      (* [...] *)
| Seq (r1 r2 : t)            (* r1 r2 *)
| Alt (r1 r2 : t)            (* r1 | r2 *)
| Star (r : t).              (* r* *)

(** A literal character. *)
Definition Chr (c : ascii) : t := Set_ [one c].

(** [r+] *)
Definition Plus (r : t) : t := Seq r (Star r).

(** [r{n}] *)
Fixpoint times (n : nat) (r : t) : t :=
  match n with
  | 0 => Eps
  | S n' => Seq r (times n' r)
  end.

(** [r{0,n}] *)
Fixpoint upto (n : nat) (r : t) : t :=
  match n with
  | 0 => Eps
  | S n' => Alt Eps (Seq r (upto n' r))
  end.

(** [r{lo,hi}] *)
Definition Rep (lo hi : nat) (r : t) : t :=
  Seq (times lo r) (upto (hi - lo) r).

Fixpoint nullable (r : t) : bool :=
  match r with
  | Void => false
  | Eps => true
  | Set_ _ => false
  | Seq r1 r2 => nullable r1 && nullable r2
  | Alt r1 r2 => nullable r1 || nullable r2
  | Star _ => true
  end.

Fixpoint deriv (c : ascii) (r : t) : t :=
  match r with
  | Void => Void
  | Eps => Void
  | Set_ cs => if in_class cs c then Eps else Void
  | Seq r1 r2 =>
      if nullable r1
      then Alt (Seq (deriv c r1) r2) (deriv c r2)
      else Seq (deriv c r1) r2
  | Alt r1 r2 => Alt (deriv c r1) (deriv c r2)
  | Star r1 => Seq (deriv c r1) (Star r1)
  end.

Fixpoint matches (r : t) (s : list ascii) : bool :=
  match s with
  | [] => nullable r
  | c :: s' => matches (deriv c r) s'
  end.

(** [re.test(s)] for an anchored pattern [re] without flags. *)
Definition test (re : t) (s : string) : bool :=
  matches re (list_ascii_of_string s).

(** The language of a pattern. *)
Inductive Lang : t -> list ascii -> Prop :=
| L_eps : Lang Eps []
| L_set cs c : in_class cs c = true -> Lang (Set_ cs) [c]
| L_seq r1 r2 s1 s2 : Lang r1 s1 -> Lang r2 s2 -> Lang (Seq r1 r2) (s1 ++ s2)
| L_alt_l r1 r2 s : Lang r1 s -> Lang (Alt r1 r2) s
| L_alt_r r1 r2 s : Lang r2 s -> Lang (Alt r1 r2) s
| L_star_nil r : Lang (Star r) []
| L_star_app r s1 s2 : Lang r s1 -> Lang (Star r) s2 -> Lang (Star r) (s1 ++ s2).

End RegExp.

(** The patterns of the register handler. *)

Definition letters : list RegExp.item :=
  [RegExp.range "a" "z"; RegExp.range "A" "Z"].

(** [/^[a-zA-Z]+$/] *)
Definition fnameRegex : RegExp.t :=
  RegExp.Plus (RegExp.Set_ letters).

(** [/^[a-zA-Z]+(['-][a-zA-Z]+)*$/] *)
Definition lnameRegex : RegExp.t :=
  RegExp.Seq
    (RegExp.Plus (RegExp.Set_ letters))
    (RegExp.Star
       (RegExp.Seq (RegExp.Set_ [RegExp.one "'"; RegExp.one "-"])
                   (RegExp.Plus (RegExp.Set_ letters)))).

(** [/^[\w-\.]+@([\w-]+\.)[\w]{2,6}$/] *)
Definition emailRegex : RegExp.t :=
  RegExp.Seq
    (RegExp.Plus (RegExp.Set_ [RegExp.word; RegExp.one "-"; RegExp.one "."]))
    (RegExp.Seq
       (RegExp.Chr "@")
       (RegExp.Seq
          (RegExp.Seq (RegExp.Plus (RegExp.Set_ [RegExp.word; RegExp.one "-"]))
                      (RegExp.Chr "."))
          (RegExp.Rep 2 6 (RegExp.Set_ [RegExp.word])))).

(** [/^[0-9]{10}$/] *)
Definition phoneNumberRegex : RegExp.t :=
  RegExp.Rep 10 10 (RegExp.Set_ [RegExp.range "0" "9"]).


(* ================================================================== *)
(** ** Requests, documents and responses *)

(** [req.body]: the fields the two handlers destructure from it.  A key
    that the JSON body does not carry reads as [undefined]. *)
Module Body.
Record t : Type := mk {
  firstName : value;
  lastName : value;
  username : value;
  password : value;
  email : value;
  phone : value
}.
End Body.

(** A document of the model [User], with the six paths of [userSchema]. *)
Module User.
Record t : Type := mk {
  firstName : value;
  lastName : value;
  username : value;
  password : value;
  email : value;
  phone : value
}.

(** [required: true] on a [String] path: the validator rejects a path that
    is unset or holds the empty string. *)
Definition validate (d : t) : bool :=
  truthy (firstName d) && truthy (lastName d) && truthy (username d)
  && truthy (password d) && truthy (email d) && truthy (phone d).
End User.

(** What a handler sends: [{ message: ... }] or a user document. *)
Inductive Json : Type :=
| Message (message : string)
| Doc (user : User.t).

Record Response : Type := mkResponse {
  status : nat;
  json : Json
}.

(** [res.status(code).json(j)] and [res.json(j)], whose status is 200. *)
Definition res_status_json (code : nat) (j : Json) : Response :=
  {| status := code; json := j |}.

Definition res_json (j : Json) : Response :=
  {| status := 200; json := j |}.

(* ================================================================== *)
(** ** The store and the handler monad *)

(** A store operation, as recorded in the log. *)
Inductive DbOp : Type :=
| OpFindOne (username : value)
| OpSave (doc : User.t).

(** The [users] collection in insertion order, and the operations sent to
    it so far. *)
Record World : Type := mkWorld {
  users : list User.t;
  oplog : list DbOp
}.

Definition empty_world : World := {| users := []; oplog := [] |}.

Inductive Outcome (A : Type) : Type :=
| Ok (a : A)
| Throw (err : string).
Arguments Ok {A} a.
Arguments Throw {A} err.

Definition M (A : Type) : Type := World -> Outcome A * World.

Definition ret {A : Type} (a : A) : M A := fun w => (Ok a, w).

Definition bind {A B : Type} (m : M A) (k : A -> M B) : M B :=
  fun w =>
    match m w with
    | (Ok a, w') => k a w'
    | (Throw e, w') => (Throw e, w')
    end.

Definition throw {A : Type} (e : string) : M A := fun w => (Throw e, w).

(** [try { m } catch (err) { h err }] *)
Definition try_catch {A : Type} (m : M A) (h : string -> M A) : M A :=
  fun w =>
    match m w with
    | (Ok a, w') => (Ok a, w')
    | (Throw e, w') => h e w'
    end.

Notation "x <- m ;; k" := (bind m (fun x => k))
  (at level 61, m at next level, right associativity).
Notation "m ;;; k" := (bind m (fun _ => k))
  (at level 61, right associativity).

(** The first document of the collection whose [username] is [u]. *)
Definition find_by_username (us : list User.t) (u : value) : option User.t :=
  find (fun d => strict_eq (User.username d) u) us.

(** [User.findOne({ username: u })] *)
Definition findOne (u : value) : M (option User.t) :=
  fun w =>
    (Ok (find_by_username (users w) u),
     {| users := users w; oplog := oplog w ++ [OpFindOne u] |}).

(** [doc.save()]: validates the document against the schema, throws when it
    is invalid, and otherwise inserts it. *)
Definition save (doc : User.t) : M unit :=
  if User.validate doc
  then fun w =>
         (Ok tt, {| users := users w ++ [doc]; oplog := oplog w ++ [OpSave doc] |})
  else throw "ValidationError".

(* ================================================================== *)
(** ** The handlers *)

(** [app.post('/api/login', ...)] *)
Definition login (body : Body.t) : M Response :=
  let username := Body.username body in
  let password := Body.password body in
  if falsy username || falsy password then
    ret (res_status_json 400 (Message "Username and password are required"))
  else
    try_catch
      (user <- findOne username ;;
       match user with
       | None => ret (res_status_json 404 (Message "User not found"))
       | Some user =>
           if strict_eq (User.password user) password
           then ret (res_json (Doc user))
           else ret (res_status_json 401 (Message "Invalid credentials"))
       end)
      (fun _ => ret (res_status_json 500 (Message "Server error"))).

(** [app.post('/api/register', ...)] *)
Definition register (body : Body.t) : M Response :=
  let username := Body.username body in
  let password := Body.password body in
  let firstName := Body.firstName body in
  let lastName := Body.lastName body in
  let email := Body.email body in
  let phone := Body.phone body in
  if falsy firstName then
    ret (res_status_json 400 (Message "First name is required"))
  else if negb (RegExp.test fnameRegex (ToString firstName)) then
    ret (res_status_json 400 (Message "First Name should contain only letters"))
  else if falsy lastName then
    ret (res_status_json 400 (Message "Last Name is required"))
  else if negb (RegExp.test lnameRegex (ToString lastName)) then
    ret (res_status_json 400 (Message "Last Name should contain only letters"))
  else if falsy email then
    ret (res_status_json 400 (Message "Email is required"))
  else if negb (RegExp.test emailRegex (ToString email)) then
    ret (res_status_json 400 (Message "Email format is invalid"))
  else if falsy phone then
    ret (res_status_json 400 (Message "Phone Number is required"))
  else if negb (RegExp.test phoneNumberRegex (ToString phone)) then
    ret (res_status_json 400 (Message "Phone Number must be 10 digits"))
  else if falsy username || falsy password then
    ret (res_status_json 400 (Message "Username and password are required"))
  else
    try_catch
      (existingUser <- findOne username ;;
       match existingUser with
       | Some _ =>
           ret (res_status_json 400 (Message "Username already taken"))
       | None =>
           let newUser :=
             {| User.firstName := firstName;
                User.lastName := lastName;
                User.username := username;
                User.password := password;
                User.email := email;
                User.phone := phone |} in
           save newUser ;;;
           ret (res_status_json 201 (Doc newUser))
       end)
      (fun _ =>
         ret (res_status_json 500 (Message "Error saving user to database"))).

(** A request to the service, and the service run on a sequence of
    requests, one after the other. *)
Inductive Request : Type :=
| Login (body : Body.t)
| Register (body : Body.t).

Definition handle (rq : Request) : M Response :=
  match rq with
  | Login b => login b
  | Register b => register b
  end.

Fixpoint serve (rqs : list Request) (w : World) : World :=
  match rqs with
  | [] => w
  | rq :: rest => serve rest (snd (handle rq w))
  end.

(* ================================================================== *)
(** ** The contract in the specification's terms *)

(** The validation of [register] as the specification lists it: an ordered
    list of checks, each with the field it belongs to and the message of its
    400 response.  A field's presence check is the handler's [!field]. *)
Inductive Field : Type :=
| FirstName
| LastName
| Email
| Phone
| Credentials.

Record Check : Type := mkCheck {
  field : Field;
  passes : Body.t -> bool;
  message : string
}.

Definition register_checks : list Check :=
  [ mkCheck FirstName (fun b => truthy (Body.firstName b))
      "First name is required";
    mkCheck FirstName
      (fun b => RegExp.test fnameRegex (ToString (Body.firstName b)))
      "First Name should contain only letters";
    mkCheck LastName (fun b => truthy (Body.lastName b))
      "Last Name is required";
    mkCheck LastName
      (fun b => RegExp.test lnameRegex (ToString (Body.lastName b)))
      "Last Name should contain only letters";
    mkCheck Email (fun b => truthy (Body.email b))
      "Email is required";
    mkCheck Email
      (fun b => RegExp.test emailRegex (ToString (Body.email b)))
      "Email format is invalid";
    mkCheck Phone (fun b => truthy (Body.phone b))
      "Phone Number is required";
    mkCheck Phone
      (fun b => RegExp.test phoneNumberRegex (ToString (Body.phone b)))
      "Phone Number must be 10 digits";
    mkCheck Credentials
      (fun b => truthy (Body.username b) && truthy (Body.password b))
      "Username and password are required" ].

(** The first check of the list that the body fails, if any. *)
Definition first_failure (b : Body.t) : option Check :=
  find (fun c => negb (passes c b)) register_checks.

(** The body passes every check. *)
Definition passes_validation (b : Body.t) : bool :=
  forallb (fun c => passes c b) register_checks.

(** The position of a field in the validation order, and the checks of the
    fields that come before it. *)
Definition rank (f : Field) : nat :=
  match f with
  | FirstName => 0
  | LastName => 1
  | Email => 2
  | Phone => 3
  | Credentials => 4
  end.

Definition checks_before (f : Field) : list Check :=
  filter (fun c => Nat.ltb (rank (field c)) (rank f)) register_checks.

(** The six keys of a register body. *)
Inductive Key : Type :=
| KfirstName
| KlastName
| Kusername
| Kpassword
| Kemail
| Kphone.

Definition get (k : Key) (b : Body.t) : value :=
  match k with
  | KfirstName => Body.firstName b
  | KlastName => Body.lastName b
  | Kusername => Body.username b
  | Kpassword => Body.password b
  | Kemail => Body.email b
  | Kphone => Body.phone b
  end.

Definition set (k : Key) (v : value) (b : Body.t) : Body.t :=
  match k with
  | KfirstName =>
      Body.mk v (Body.lastName b) (Body.username b) (Body.password b)
        (Body.email b) (Body.phone b)
  | KlastName =>
      Body.mk (Body.firstName b) v (Body.username b) (Body.password b)
        (Body.email b) (Body.phone b)
  | Kusername =>
      Body.mk (Body.firstName b) (Body.lastName b) v (Body.password b)
        (Body.email b) (Body.phone b)
  | Kpassword =>
      Body.mk (Body.firstName b) (Body.lastName b) (Body.username b) v
        (Body.email b) (Body.phone b)
  | Kemail =>
      Body.mk (Body.firstName b) (Body.lastName b) (Body.username b)
        (Body.password b) v (Body.phone b)
  | Kphone =>
      Body.mk (Body.firstName b) (Body.lastName b) (Body.username b)
        (Body.password b) (Body.email b) v
  end.

Definition field_of (k : Key) : Field :=
  match k with
  | KfirstName => FirstName
  | KlastName => LastName
  | Kusername => Credentials
  | Kpassword => Credentials
  | Kemail => Email
  | Kphone => Phone
  end.

(** The message of the presence check of a key, and of its format check
    when it has one. *)
Definition required_message (k : Key) : string :=
  match k with
  | KfirstName => "First name is required"
  | KlastName => "Last Name is required"
  | Kemail => "Email is required"
  | Kphone => "Phone Number is required"
  | Kusername => "Username and password are required"
  | Kpassword => "Username and password are required"
  end.

Definition format_message (k : Key) : option string :=
  match k with
  | KfirstName => Some "First Name should contain only letters"
  | KlastName => Some "Last Name should contain only letters"
  | Kemail => Some "Email format is invalid"
  | Kphone => Some "Phone Number must be 10 digits"
  | Kusername => None
  | Kpassword => None
  end.

(** The checks of every earlier field pass, so the checks of [k]'s field
    are the next to run. *)
Definition reached (k : Key) (b : Body.t) : bool :=
  forallb (fun c => passes c b) (checks_before (field_of k)).

(** The document and the body carry the same six fields. *)
Definition same_fields (b : Body.t) (d : User.t) : Prop :=
  User.firstName d = Body.firstName b /\
  User.lastName d = Body.lastName b /\
  User.username d = Body.username b /\
  User.password d = Body.password b /\
  User.email d = Body.email b /\
  User.phone d = Body.phone b.

(** [new User({ firstName, lastName, username, password, email, phone })]
    of a register body. *)
Definition document_of (b : Body.t) : User.t :=
  {| User.firstName := Body.firstName b;
     User.lastName := Body.lastName b;
     User.username := Body.username b;
     User.password := Body.password b;
     User.email := Body.email b;
     User.phone := Body.phone b |}.

(** Two readings of a field that is not there: the key is not in the body,
    or the key is not in the body or holds the empty string. *)
Definition absent (v : value) : Prop := v = undefined.

Definition absent_or_empty (v : value) : Prop := v = undefined \/ v = str "".

(** No document of the collection has the username [u]. *)
Definition no_record (us : list User.t) (u : value) : Prop :=
  forall d, In d us -> User.username d <> u.

(** The four outcomes of [login], each tied to its case, for a given reading
    [missing] of a field that is not there. *)
Definition login_contract (missing : value -> Prop) : Prop :=
  forall (b : Body.t) (w : World),
  exists (r : Response) (w' : World),
    login b w = (Ok r, w') /\
    let u := Body.username b in
    let p := Body.password b in
    let supplied := ~ (missing u \/ missing p) in
    (status r = 400 <-> missing u \/ missing p) /\
    (status r = 404 <-> supplied /\ no_record (users w) u) /\
    (status r = 401 <->
       supplied /\
       exists d, find_by_username (users w) u = Some d /\ User.password d <> p) /\
    (status r = 200 <->
       supplied /\
       exists d, find_by_username (users w) u = Some d /\ User.password d = p).

(** Usernames are pairwise distinct across the collection. *)
Definition unique_usernames (us : list User.t) : Prop :=
  NoDup (map User.username us).

(** Character predicates on strings. *)
Fixpoint every (p : ascii -> bool) (s : string) : bool :=
  match s with
  | EmptyString => true
  | String c s' => p c && every p s'
  end.

Fixpoint some (p : ascii -> bool) (s : string) : bool :=
  match s with
  | EmptyString => false
  | String c s' => p c || some p s'
  end.

Definition is_letter (c : ascii) : bool := RegExp.in_class letters c.

Definition is_digit (c : ascii) : bool := RegExp.between "0" "9" c.

Definition is_space (c : ascii) : bool := Ascii.eqb c " ".

(** The shapes the four patterns describe. *)
Definition letters_only (s : string) : Prop :=
  s <> "" /\ every is_letter s = true.

(** A separator ['] or [-] followed by letters. *)
Definition name_part (g : ascii * string) : Prop :=
  (fst g = "'"%char \/ fst g = "-"%char) /\ letters_only (snd g).

Definition join_parts (gs : list (ascii * string)) : string :=
  fold_right (fun g acc => String (fst g) (snd g ++ acc)%string) "" gs.

Definition hyphenated_name (s : string) : Prop :=
  exists (p : string) (gs : list (ascii * string)),
    s = (p ++ join_parts gs)%string /\ letters_only p /\ Forall name_part gs.

Definition ten_digits (s : string) : Prop :=
  String.length s = 10 /\ every is_digit s = true.

(** [local@label.tld]: one label after the [@], then a dot, then a
    top-level domain of two to six word characters. *)
Definition one_label_address (s : string) : Prop :=
  exists local label tld : string,
    s = (local ++ "@" ++ label ++ "." ++ tld)%string /\
    local <> "" /\
    every (RegExp.in_class [RegExp.word; RegExp.one "-"; RegExp.one "."]) local
      = true /\
    label <> "" /\
    every (RegExp.in_class [RegExp.word; RegExp.one "-"]) label = true /\
    2 <= String.length tld <= 6 /\
    every RegExp.is_word tld = true.

(** The scenario of the specification: a registration that passes every
    check, and the login bodies that go with it. *)
Definition jane : Body.t :=
  {| Body.firstName := str "Jane";
     Body.lastName := str "Doe";
     Body.username := str "jdoe";
     Body.password := str "pw1";
     Body.email := str "jane@doe.com";
     Body.phone := str "5551234567" |}.

(** [{ username, password }], the body the client posts to [/api/login]. *)
Definition credentials (username password : value) : Body.t :=
  {| Body.firstName := undefined;
     Body.lastName := undefined;
     Body.username := username;
     Body.password := password;
     Body.email := undefined;
     Body.phone := undefined |}.

(** A stored document as the nine checks of [register] leave it: six
    strings of the shapes the patterns describe. *)
Definition well_formed (d : User.t) : Prop :=
  exists fn ln un pw em ph : string,
    d = User.mk (str fn) (str ln) (str un) (str pw) (str em) (str ph) /\
    letters_only fn /\ hyphenated_name ln /\ un <> "" /\ pw <> "" /\
    one_label_address em /\ ten_digits ph.

(** The first and the last character of a string. *)
Definition first_char (s : string) : option ascii :=
  match s with
  | EmptyString => None
  | String c _ => Some c
  end.

Fixpoint last_char (s : string) : option ascii :=
  match s with
  | EmptyString => None
  | String c EmptyString => Some c
  | String _ s' => last_char s'
  end.

(** How many times [c] occurs in [s]. *)
Fixpoint occurrences (c : ascii) (s : string) : nat :=
  match s with
  | EmptyString => 0
  | String x s' => (if Ascii.eqb x c then 1 else 0) + occurrences c s'
  end.

(* ================================================================== *)
(** ** The AngularJS client, [client/js/app.js]

    The controllers act on [$rootScope] and [$location], gathered in
    [Root] together with the alerts shown, and on the scope that each
    instantiation of a controller creates: a controller function takes the
    root and returns it with its fresh scope.  A [$http.post] runs the
    server's handler on the store, and the callback of its promise runs
    before the next event.  Watchers and the digest cycle are not part of
    the model. *)

Module Client.

(** [$rootScope.currentUser]: [undefined] until [MainController] runs,
    [null] when logged out, or the [response.data] of a successful request,
    to which [ProfileController] adds the path [status]. *)
Inductive user : Type :=
| Undefined
| Null
| Object (data : Json) (status : value).

(** [!!u] *)
Definition truthy_user (u : user) : bool :=
  match u with
  | Object _ _ => true
  | _ => false
  end.

(** [u.username] of an object. *)
Definition username_of (u : user) : value :=
  match u with
  | Object (Doc d) _ => User.username d
  | _ => undefined
  end.

(** [u.status = v] *)
Definition set_status (v : value) (u : user) : user :=
  match u with
  | Object data _ => Object data v
  | other => other
  end.

(** [$rootScope], [$location.path()] and the alerts shown so far.  A
    [logoutFlag] that was never set reads as [false]. *)
Record Root : Type := mkRoot {
  currentUser : user;
  logoutFlag : bool;
  path : string;
  alerts : list string
}.

Definition set_currentUser (u : user) (r : Root) : Root :=
  mkRoot u (logoutFlag r) (path r) (alerts r).

Definition set_logoutFlag (f : bool) (r : Root) : Root :=
  mkRoot (currentUser r) f (path r) (alerts r).

(** [$location.path(p)] *)
Definition location_path (p : string) (r : Root) : Root :=
  mkRoot (currentUser r) (logoutFlag r) p (alerts r).

(** [alert(m)] *)
Definition alert (m : string) (r : Root) : Root :=
  mkRoot (currentUser r) (logoutFlag r) (path r) (alerts r ++ [m]).

(** The table of [$routeProvider]: path, template, controller. *)
Definition routes : list (string * (string * option string)) :=
  [ ("/", ("views/homePage.html", None));
    ("/schedule", ("views/schedule.html", Some "ScheduleController"));
    ("/login", ("views/login.html", Some "AuthController"));
    ("/profile", ("views/profile.html", Some "ProfileController")) ].

Definition is_route (p : string) : bool :=
  existsb (fun rt => String.eqb (fst rt) p) routes.

(** [app.controller("MainController", ...)]: its body, then its three
    scope functions. *)
Definition MainController (r : Root) : Root :=
  set_currentUser
    (if truthy_user (currentUser r) then currentUser r else Null) r.

Definition isLoggedIn (r : Root) : bool :=
  match currentUser r with
  | Null => false
  | _ => true
  end.

Definition checkProfileAccess (r : Root) : Root :=
  if isLoggedIn r then location_path "/profile" r
  else
    location_path "/login"
      (alert "You are not logged in! Please login to view your profile." r).

Definition logout (r : Root) : Root :=
  location_path "/" (set_currentUser Null r).

(** The scope of [AuthController]. *)
Record AuthScope : Type := mkAuthScope {
  showLogin : option bool;
  loginUser : Body.t;
  newUser : Body.t;
  errorMessage : string
}.

Definition set_errorMessage (m : string) (s : AuthScope) : AuthScope :=
  mkAuthScope (showLogin s) (loginUser s) (newUser s) m.

(** What the form's [ng-model] bindings write. *)
Definition set_loginUser (b : Body.t) (s : AuthScope) : AuthScope :=
  mkAuthScope (showLogin s) b (newUser s) (errorMessage s).

Definition set_newUser (b : Body.t) (s : AuthScope) : AuthScope :=
  mkAuthScope (showLogin s) (loginUser s) b (errorMessage s).

(** [{}] *)
Definition empty_object : Body.t :=
  Body.mk undefined undefined undefined undefined undefined undefined.

(** The body of [app.controller("AuthController", ...)]. *)
Definition AuthController (r : Root) : Root * AuthScope :=
  let s := mkAuthScope None empty_object empty_object "" in
  let (r, s) :=
    if logoutFlag r
    then (set_logoutFlag false r,
          set_errorMessage "Session expired. Please login again." s)
    else (r, s) in
  let (r, s) :=
    if logoutFlag r
    then (set_logoutFlag false r,
          set_errorMessage "You have been logged out successfully." s)
    else (r, s) in
  let r :=
    if truthy_user (currentUser r)
    then alert ("You are already logged in as "
                ++ ToString (username_of (currentUser r))
                ++ ". You can login as a different user below.")%string r
    else r in
  (r, s).

(** [$http] resolves the promise on a 2xx status and rejects it
    otherwise. *)
Definition resolves (response : Response) : bool :=
  Nat.leb 200 (status response) && Nat.ltb (status response) 300.

(** [error.data.message] *)
Definition message_of (data : Json) : value :=
  match data with
  | Message m => str m
  | Doc _ => undefined
  end.

(** [v || fallback], with a string for [fallback]. *)
Definition or_else (v : value) (fallback : string) : string :=
  match v with
  | str (String c s) => String c s
  | _ => fallback
  end.

(** [$http.post('http://localhost:3000/api/login', body)] and
    [$http.post('http://localhost:3000/api/register', body)]. *)
Definition post_api_login (body : Body.t) : M Response := login body.

Definition post_api_register (body : Body.t) : M Response := register body.

(** [$scope.login] *)
Definition login (r : Root) (s : AuthScope) (w : World)
  : Root * AuthScope * World :=
  if falsy (Body.username (loginUser s)) || falsy (Body.password (loginUser s))
  then (r, set_errorMessage "Please enter username and password." s, w)
  else
    match
      post_api_login
        (credentials (Body.username (loginUser s))
                     (Body.password (loginUser s))) w
    with
    | (Ok response, w') =>
        if resolves response
        then (location_path "/profile"
                (set_currentUser (Object (json response) undefined) r),
              s, w')
        else (r,
              set_errorMessage
                (or_else (message_of (json response)) "Login failed try again.")
                s,
              w')
    | (Throw _, w') => (r, s, w')
    end.

(** [$scope.register] *)
Definition register (r : Root) (s : AuthScope) (w : World)
  : Root * AuthScope * World :=
  if falsy (Body.username (newUser s))
     || falsy (Body.password (newUser s))
     || falsy (Body.firstName (newUser s))
     || falsy (Body.lastName (newUser s))
     || falsy (Body.email (newUser s))
     || falsy (Body.phone (newUser s))
  then (r, set_errorMessage "Please fill in all fields." s, w)
  else
    match post_api_register (newUser s) w with
    | (Ok response, w') =>
        if resolves response
        then (location_path "/profile"
                (set_currentUser (Object (json response) undefined) r),
              s, w')
        else (r,
              set_errorMessage
                (or_else (message_of (json response)) "Registration failed.")
                s,
              w')
    | (Throw _, w') => (r, s, w')
    end.

(** The scope of [ProfileController], and its body. *)
Record ProfileScope : Type := mkProfileScope {
  profile : user
}.

Definition ProfileController (r : Root) : Root * ProfileScope :=
  if negb (truthy_user (currentUser r))
  then (location_path "/login" (set_logoutFlag true r),
        mkProfileScope Undefined)
  else
    let r := set_currentUser (set_status (str "Active Member") (currentUser r)) r in
    (r, mkProfileScope (currentUser r)).

(** The page: the root, the scopes of the last instantiation of each
    controller, and the server's store. *)
Record Page : Type := mkPage {
  root : Root;
  auth : AuthScope;
  prof : ProfileScope;
  server : World
}.

(** What can happen to a page: a controller is instantiated, the user
    types into a form or clicks, or some other client's request reaches
    the server. *)
Inductive Event : Type :=
| RunMain
| RunAuth
| RunProfile
| TypeLogin (b : Body.t)
| TypeRegister (b : Body.t)
| ClickLogin
| ClickRegister
| ClickProfile
| ClickLogout
| Remote (rq : Request).

Definition step (e : Event) (p : Page) : Page :=
  match e with
  | RunMain => mkPage (MainController (root p)) (auth p) (prof p) (server p)
  | RunAuth =>
      let (r, s) := AuthController (root p) in mkPage r s (prof p) (server p)
  | RunProfile =>
      let (r, s) := ProfileController (root p) in mkPage r (auth p) s (server p)
  | TypeLogin b => mkPage (root p) (set_loginUser b (auth p)) (prof p) (server p)
  | TypeRegister b => mkPage (root p) (set_newUser b (auth p)) (prof p) (server p)
  | ClickLogin =>
      match login (root p) (auth p) (server p) with
      | (r, s, w) => mkPage r s (prof p) w
      end
  | ClickRegister =>
      match register (root p) (auth p) (server p) with
      | (r, s, w) => mkPage r s (prof p) w
      end
  | ClickProfile => mkPage (checkProfileAccess (root p)) (auth p) (prof p) (server p)
  | ClickLogout => mkPage (logout (root p)) (auth p) (prof p) (server p)
  | Remote rq => mkPage (root p) (auth p) (prof p) (snd (handle rq (server p)))
  end.

Fixpoint run (es : list Event) (p : Page) : Page :=
  match es with
  | [] => p
  | e :: rest => run rest (step e p)
  end.

(** A page that was just loaded, before any controller ran. *)
Definition fresh (w : World) : Page :=
  mkPage (mkRoot Undefined false "/" [])
         (mkAuthScope None empty_object empty_object "")
         (mkProfileScope Undefined)
         w.

(** The current user is [null] or a document of the server's collection,
    and the location is a route of the table. *)
Definition consistent (p : Page) : Prop :=
  (currentUser (root p) = Null \/
   exists d st, currentUser (root p) = Object (Doc d) st /\
                In d (users (server p))) /\
  is_route (path (root p)) = true.

End Client.

(* ================================================================== *)
(** * Properties *)

(** ** The matcher decides the language of a pattern *)

Section Matcher.
Import RegExp.

Lemma Lang_seq_inv r1 r2 s :
  Lang (Seq r1 r2) s <->
  exists s1 s2, s = s1 ++ s2 /\ Lang r1 s1 /\ Lang r2 s2.
Proof.
  split.
  - intros H. inversion H; subst. eauto.
  - intros (s1 & s2 & -> & H1 & H2). now constructor.
Qed.

Lemma Lang_alt_inv r1 r2 s :
  Lang (Alt r1 r2) s <-> Lang r1 s \/ Lang r2 s.
Proof.
  split.
  - intros H. inversion H; subst; auto.
  - intros [H | H]; [apply L_alt_l | apply L_alt_r]; exact H.
Qed.

Lemma Lang_set_inv cs s :
  Lang (Set_ cs) s <-> exists c, s = [c] /\ in_class cs c = true.
Proof.
  split.
  - intros H. inversion H; subst. eauto.
  - intros (c & -> & Hc). now constructor.
Qed.

Lemma Lang_eps_inv s : Lang Eps s <-> s = [].
Proof.
  split.
  - intros H. now inversion H.
  - intros ->. constructor.
Qed.

Lemma nullable_Lang r : nullable r = true <-> Lang r [].
Proof.
  induction r as [| |cs|r1 IH1 r2 IH2|r1 IH1 r2 IH2|r IH]; simpl.
  - split; [discriminate | intros H; inversion H].
  - split; [constructor | reflexivity].
  - split; [discriminate | intros H; inversion H].
  - rewrite andb_true_iff, IH1, IH2, Lang_seq_inv. split.
    + intros [H1 H2]. exists [], []. auto.
    + intros (s1 & s2 & E & H1 & H2). symmetry in E.
      apply app_eq_nil in E as [-> ->]. auto.
  - rewrite orb_true_iff, IH1, IH2, Lang_alt_inv. reflexivity.
  - split; [constructor | reflexivity].
Qed.

(** A non-empty word of [r*] starts with a non-empty word of [r]. *)
Lemma Lang_star_cons r c s :
  Lang (Star r) (c :: s) ->
  exists s1 s2, s = s1 ++ s2 /\ Lang r (c :: s1) /\ Lang (Star r) s2.
Proof.
  intros H. remember (Star r) as r' eqn:Er. remember (c :: s) as cs eqn:Es.
  revert c s Es.
  induction H as [| | | | | |r0 s1 s2 H1 _ H2 IH2]; intros a u Es;
    try discriminate.
  injection Er as ->. destruct s1 as [|c1 s1]; simpl in Es.
  - apply IH2; auto.
  - injection Es as -> <-. exists s1, s2. auto.
Qed.

Lemma deriv_Lang c r : forall s, Lang (deriv c r) s <-> Lang r (c :: s).
Proof.
  induction r as [| |cs|r1 IH1 r2 IH2|r1 IH1 r2 IH2|r IH]; intros s; simpl.
  - split; intros H; inversion H.
  - split; intros H; inversion H.
  - destruct (in_class cs c) eqn:Hc.
    + rewrite Lang_eps_inv, Lang_set_inv. split.
      * intros ->. eauto.
      * intros (c' & E & _). now injection E.
    + rewrite Lang_set_inv. split.
      * intros H. inversion H.
      * intros (c' & E & Hc'). injection E as -> _. congruence.
  - assert (Hseq : Lang (Seq (deriv c r1) r2) s <->
                   exists s1 s2, s = s1 ++ s2 /\ Lang r1 (c :: s1) /\ Lang r2 s2).
    { rewrite Lang_seq_inv. split; intros (s1 & s2 & E & H1 & H2);
        exists s1, s2; (split; [exact E|]); split; auto; now apply IH1. }
    destruct (nullable r1) eqn:Hn.
    + rewrite Lang_alt_inv, Hseq, IH2, Lang_seq_inv. split.
      * intros [(s1 & s2 & -> & H1 & H2) | H2].
        -- exists (c :: s1), s2. auto.
        -- exists [], (c :: s). split; [reflexivity|]. split; auto.
           now apply nullable_Lang.
      * intros (s1 & s2 & E & H1 & H2). destruct s1 as [|c1 s1]; simpl in E.
        -- right. now rewrite E.
        -- injection E as <- ->. left. eauto.
    + rewrite Hseq, Lang_seq_inv. split.
      * intros (s1 & s2 & -> & H1 & H2). exists (c :: s1), s2. auto.
      * intros (s1 & s2 & E & H1 & H2). destruct s1 as [|c1 s1]; simpl in E.
        -- apply nullable_Lang in H1. congruence.
        -- injection E as <- ->. eauto.
  - rewrite !Lang_alt_inv, IH1, IH2. reflexivity.
  - rewrite Lang_seq_inv. split.
    + intros (s1 & s2 & -> & H1 & H2). apply IH in H1.
      change (c :: s1 ++ s2) with ((c :: s1) ++ s2). now constructor.
    + intros H. apply Lang_star_cons in H as (s1 & s2 & -> & H1 & H2).
      exists s1, s2. split; [reflexivity|]. split; auto. now apply IH.
Qed.

Lemma matches_Lang s : forall r, matches r s = true <-> Lang r s.
Proof.
  induction s as [|c s IH]; intros r; simpl.
  - apply nullable_Lang.
  - rewrite IH. apply deriv_Lang.
Qed.

End Matcher.

(** ** Patterns built from one character class *)

Section ClassPatterns.
Import RegExp.
Variable cs : list item.

Lemma Lang_star_set s :
  Lang (Star (Set_ cs)) s <-> forallb (in_class cs) s = true.
Proof.
  split.
  - intros H. remember (Star (Set_ cs)) as r eqn:Er.
    induction H as [| | | | | |r0 s1 s2 H1 _ H2 IH2]; try discriminate.
    + reflexivity.
    + injection Er as ->. apply Lang_set_inv in H1 as (c & -> & Hc).
      simpl. rewrite Hc. now apply IH2.
  - induction s as [|c s IH]; simpl; intros H.
    + constructor.
    + apply andb_true_iff in H as [Hc Hs].
      change (c :: s) with ([c] ++ s). constructor; auto. now constructor.
Qed.

Lemma Lang_plus_set s :
  Lang (Plus (Set_ cs)) s <-> s <> [] /\ forallb (in_class cs) s = true.
Proof.
  unfold Plus. rewrite Lang_seq_inv. split.
  - intros (s1 & s2 & -> & H1 & H2).
    apply Lang_set_inv in H1 as (c & -> & Hc). apply Lang_star_set in H2.
    simpl. rewrite Hc, H2. split; [discriminate | reflexivity].
  - intros [Hne H]. destruct s as [|c s]; [congruence|].
    simpl in H. apply andb_true_iff in H as [Hc Hs].
    exists [c], s. split; [reflexivity|]. split.
    + now constructor.
    + now apply Lang_star_set.
Qed.

Lemma Lang_times_set n : forall s,
  Lang (times n (Set_ cs)) s <->
  length s = n /\ forallb (in_class cs) s = true.
Proof.
  induction n as [|n IH]; intros s; simpl.
  - rewrite Lang_eps_inv. split.
    + intros ->. auto.
    + intros [H _]. now apply length_zero_iff_nil.
  - rewrite Lang_seq_inv. split.
    + intros (s1 & s2 & -> & H1 & H2).
      apply Lang_set_inv in H1 as (c & -> & Hc). apply IH in H2 as [Hl Hs].
      simpl. rewrite Hc, Hs, Hl. auto.
    + intros [Hl H]. destruct s as [|c s]; [discriminate|].
      simpl in Hl, H. apply andb_true_iff in H as [Hc Hs].
      exists [c], s. split; [reflexivity|]. split.
      * now constructor.
      * apply IH. split; [lia | exact Hs].
Qed.

Lemma Lang_upto_set n : forall s,
  Lang (upto n (Set_ cs)) s <->
  length s <= n /\ forallb (in_class cs) s = true.
Proof.
  induction n as [|n IH]; intros s; simpl.
  - rewrite Lang_eps_inv. split.
    + intros ->. auto.
    + intros [H _]. apply length_zero_iff_nil. lia.
  - rewrite Lang_alt_inv, Lang_eps_inv, Lang_seq_inv. split.
    + intros [-> | (s1 & s2 & -> & H1 & H2)].
      * simpl. split; [lia | reflexivity].
      * apply Lang_set_inv in H1 as (c & -> & Hc). apply IH in H2 as [Hl Hs].
        simpl. rewrite Hc, Hs. split; [lia | reflexivity].
    + intros [Hl H]. destruct s as [|c s]; [now left | right].
      simpl in Hl, H. apply andb_true_iff in H as [Hc Hs].
      exists [c], s. split; [reflexivity|]. split.
      * now constructor.
      * apply IH. split; [lia | exact Hs].
Qed.

Lemma Lang_rep_set lo hi s :
  lo <= hi ->
  Lang (Rep lo hi (Set_ cs)) s <->
  lo <= length s <= hi /\ forallb (in_class cs) s = true.
Proof.
  intros Hlh. unfold Rep. rewrite Lang_seq_inv. split.
  - intros (s1 & s2 & -> & H1 & H2).
    apply Lang_times_set in H1 as [Hl1 Hs1].
    apply Lang_upto_set in H2 as [Hl2 Hs2].
    rewrite length_app, forallb_app, Hs1, Hs2. split; [lia | reflexivity].
  - intros [Hl H]. exists (firstn lo s), (skipn lo s).
    rewrite <- (firstn_skipn lo s) in H. rewrite forallb_app in H.
    apply andb_true_iff in H as [H1 H2].
    split; [now rewrite firstn_skipn|]. split.
    + apply Lang_times_set. split; [|exact H1]. rewrite length_firstn. lia.
    + apply Lang_upto_set. split; [|exact H2]. rewrite length_skipn. lia.
Qed.

End ClassPatterns.

(** ** Strings and their lists of characters *)

Lemma chars_app (a b : string) :
  list_ascii_of_string (a ++ b) =
  list_ascii_of_string a ++ list_ascii_of_string b.
Proof. induction a as [|c a IH]; simpl; [reflexivity | now rewrite IH]. Qed.

Lemma chars_length (s : string) :
  length (list_ascii_of_string s) = String.length s.
Proof. induction s as [|c s IH]; simpl; [reflexivity | now rewrite IH]. Qed.

Lemma chars_nil (s : string) : list_ascii_of_string s = [] <-> s = "".
Proof. destruct s; simpl; split; intros H; try reflexivity; discriminate. Qed.

Lemma chars_inj (a b : string) :
  list_ascii_of_string a = list_ascii_of_string b -> a = b.
Proof.
  intros H. rewrite <- (string_of_list_ascii_of_string a),
    <- (string_of_list_ascii_of_string b). now rewrite H.
Qed.

Lemma every_chars (p : ascii -> bool) (s : string) :
  every p s = forallb p (list_ascii_of_string s).
Proof. induction s as [|c s IH]; simpl; [reflexivity | now rewrite IH]. Qed.

Lemma every_ext (p q : ascii -> bool) (s : string) :
  (forall c, p c = q c) -> every p s = every q s.
Proof.
  intros E. induction s as [|c s IH]; simpl; [reflexivity | now rewrite E, IH].
Qed.

Lemma forallb_same (p q : ascii -> bool) (l : list ascii) :
  (forall c, p c = q c) -> forallb p l = forallb q l.
Proof.
  intros E. induction l as [|c l IH]; simpl; [reflexivity | now rewrite E, IH].
Qed.

Lemma in_class_digit c : RegExp.in_class [RegExp.range "0" "9"] c = is_digit c.
Proof. unfold RegExp.in_class, is_digit. simpl. apply orb_false_r. Qed.

Lemma in_class_word c : RegExp.in_class [RegExp.word] c = RegExp.is_word c.
Proof. unfold RegExp.in_class. simpl. apply orb_false_r. Qed.

Lemma test_Lang (re : RegExp.t) (s : string) :
  RegExp.test re s = true <-> RegExp.Lang re (list_ascii_of_string s).
Proof. apply matches_Lang. Qed.

(** ** What the four patterns accept *)

Lemma Lang_chr_inv (c : ascii) (s : list ascii) :
  RegExp.Lang (RegExp.Chr c) s <-> s = [c].
Proof.
  unfold RegExp.Chr. rewrite Lang_set_inv. unfold RegExp.in_class. simpl. split.
  - intros (c' & -> & H). rewrite orb_false_r in H.
    apply Ascii.eqb_eq in H. now subst.
  - intros ->. exists c. split; [reflexivity|].
    now rewrite Ascii.eqb_refl.
Qed.

Lemma fnameRegex_accepts (s : string) :
  RegExp.test fnameRegex s = true <-> letters_only s.
Proof.
  unfold fnameRegex, letters_only, is_letter.
  rewrite test_Lang, Lang_plus_set, chars_nil, every_chars. reflexivity.
Qed.

Lemma phoneNumberRegex_accepts (s : string) :
  RegExp.test phoneNumberRegex s = true <-> ten_digits s.
Proof.
  unfold phoneNumberRegex, ten_digits.
  rewrite test_Lang, Lang_rep_set by lia.
  rewrite chars_length, <- every_chars, (every_ext _ _ s in_class_digit).
  split; intros [H1 H2]; (split; [lia | exact H2]).
Qed.

Lemma emailRegex_accepts (s : string) :
  RegExp.test emailRegex s = true <-> one_label_address s.
Proof.
  unfold emailRegex, one_label_address. rewrite test_Lang. split.
  - intros H.
    apply Lang_seq_inv in H as (l1 & r1 & E1 & Hlocal & H).
    apply Lang_seq_inv in H as (at_ & r2 & E2 & Hat & H).
    apply Lang_seq_inv in H as (r3 & l4 & E3 & H & Htld).
    apply Lang_seq_inv in H as (l3 & dot & E4 & Hlabel & Hdot).
    apply Lang_chr_inv in Hat. apply Lang_chr_inv in Hdot. subst.
    apply Lang_plus_set in Hlocal as [Hl1 Hl1'].
    apply Lang_plus_set in Hlabel as [Hl3 Hl3'].
    apply Lang_rep_set in Htld as [Hl4 Hl4']; [|lia].
    exists (string_of_list_ascii l1), (string_of_list_ascii l3),
      (string_of_list_ascii l4).
    rewrite !every_chars, <- !chars_length, <- !chars_nil,
      !list_ascii_of_string_of_list_ascii.
    split.
    { apply chars_inj. rewrite E1, !chars_app,
        !list_ascii_of_string_of_list_ascii. simpl.
      now rewrite <- app_assoc. }
    repeat split; auto; try lia.
    rewrite <- (forallb_same _ _ l4 in_class_word). exact Hl4'.
  - intros (local & label & tld & -> & Hl1 & Hl1' & Hl3 & Hl3' & Hl4 & Hl4').
    rewrite !chars_app. simpl.
    apply RegExp.L_seq.
    { apply Lang_plus_set. rewrite chars_nil, <- every_chars. auto. }
    change ("@"%char :: list_ascii_of_string label
              ++ "."%char :: list_ascii_of_string tld)
      with (["@"%char] ++ (list_ascii_of_string label
              ++ "."%char :: list_ascii_of_string tld)).
    apply RegExp.L_seq; [now apply Lang_chr_inv|].
    replace (list_ascii_of_string label ++ "."%char :: list_ascii_of_string tld)
      with ((list_ascii_of_string label ++ ["."%char])
              ++ list_ascii_of_string tld)
      by (now rewrite <- app_assoc).
    apply RegExp.L_seq.
    + apply RegExp.L_seq; [|now apply Lang_chr_inv].
      apply Lang_plus_set. rewrite chars_nil, <- every_chars. auto.
    + apply Lang_rep_set; [lia|]. rewrite chars_length, <- every_chars.
      split; [exact Hl4|].
      rewrite (every_ext _ _ tld in_class_word). exact Hl4'.
Qed.

Lemma separator_class (c : ascii) :
  RegExp.in_class [RegExp.one "'"; RegExp.one "-"] c = true <->
  c = "'"%char \/ c = "-"%char.
Proof.
  unfold RegExp.in_class. simpl.
  rewrite orb_false_r, orb_true_iff, !Ascii.eqb_eq. reflexivity.
Qed.

Lemma name_part_Lang (g : ascii * string) :
  name_part g <->
  RegExp.Lang
    (RegExp.Seq (RegExp.Set_ [RegExp.one "'"; RegExp.one "-"])
                (RegExp.Plus (RegExp.Set_ letters)))
    (fst g :: list_ascii_of_string (snd g)).
Proof.
  unfold name_part, letters_only, is_letter. rewrite Lang_seq_inv. split.
  - intros (Hsep & Hne & Hall). exists [fst g], (list_ascii_of_string (snd g)).
    split; [reflexivity|]. split.
    + constructor. now apply separator_class.
    + apply Lang_plus_set. rewrite chars_nil, <- every_chars. auto.
  - intros (s1 & s2 & E & H1 & H2).
    apply Lang_set_inv in H1 as (c & -> & Hc). injection E as -> <-.
    apply Lang_plus_set in H2. rewrite chars_nil, <- every_chars in H2.
    split; [now apply separator_class | exact H2].
Qed.

Lemma join_parts_Lang (gs : list (ascii * string)) :
  Forall name_part gs ->
  RegExp.Lang
    (RegExp.Star
       (RegExp.Seq (RegExp.Set_ [RegExp.one "'"; RegExp.one "-"])
                   (RegExp.Plus (RegExp.Set_ letters))))
    (list_ascii_of_string (join_parts gs)).
Proof.
  induction 1 as [|g gs Hg _ IH]; simpl.
  - constructor.
  - rewrite chars_app.
    change (fst g :: list_ascii_of_string (snd g)
              ++ list_ascii_of_string (join_parts gs))
      with ((fst g :: list_ascii_of_string (snd g))
              ++ list_ascii_of_string (join_parts gs)).
    constructor; [now apply name_part_Lang | exact IH].
Qed.

Lemma Lang_join_parts (l : list ascii) :
  RegExp.Lang
    (RegExp.Star
       (RegExp.Seq (RegExp.Set_ [RegExp.one "'"; RegExp.one "-"])
                   (RegExp.Plus (RegExp.Set_ letters))))
    l ->
  exists gs, l = list_ascii_of_string (join_parts gs) /\ Forall name_part gs.
Proof.
  intros H.
  remember (RegExp.Star
       (RegExp.Seq (RegExp.Set_ [RegExp.one "'"; RegExp.one "-"])
                   (RegExp.Plus (RegExp.Set_ letters)))) as r eqn:Er.
  induction H as [| | | | | |r0 s1 s2 H1 _ H2 IH2]; try discriminate.
  - exists []. split; [reflexivity | constructor].
  - injection Er as ->. destruct (IH2 eq_refl) as (gs & -> & Hgs).
    assert (Hs1 : exists c q, s1 = c :: q).
    { apply Lang_seq_inv in H1 as (a & b & -> & Ha & _).
      apply Lang_set_inv in Ha as (c & -> & _). simpl. eauto. }
    destruct Hs1 as (c & q & ->).
    exists ((c, string_of_list_ascii q) :: gs). split.
    + simpl. now rewrite chars_app, list_ascii_of_string_of_list_ascii.
    + constructor; [|exact Hgs]. apply name_part_Lang. simpl.
      now rewrite list_ascii_of_string_of_list_ascii.
Qed.

Lemma lnameRegex_accepts (s : string) :
  RegExp.test lnameRegex s = true <-> hyphenated_name s.
Proof.
  unfold lnameRegex, hyphenated_name. rewrite test_Lang, Lang_seq_inv. split.
  - intros (l1 & l2 & E & H1 & H2).
    apply Lang_plus_set in H1 as [Hne Hall].
    apply Lang_join_parts in H2 as (gs & -> & Hgs).
    exists (string_of_list_ascii l1), gs. split; [|split].
    + apply chars_inj.
      now rewrite E, chars_app, list_ascii_of_string_of_list_ascii.
    + unfold letters_only, is_letter.
      now rewrite every_chars, <- chars_nil,
        list_ascii_of_string_of_list_ascii.
    + exact Hgs.
  - intros (p & gs & -> & [Hne Hall] & Hgs).
    exists (list_ascii_of_string p), (list_ascii_of_string (join_parts gs)).
    split; [apply chars_app|]. split.
    + apply Lang_plus_set. rewrite chars_nil, <- every_chars. auto.
    + now apply join_parts_Lang.
Qed.

(* ================================================================== *)
(** ** Values and the collection *)

Lemma strict_eq_true (a b : value) : strict_eq a b = true <-> a = b.
Proof.
  unfold strict_eq. destruct (value_eq_dec a b); split; congruence.
Qed.

Lemma strict_eq_false (a b : value) : strict_eq a b = false <-> a <> b.
Proof.
  unfold strict_eq. destruct (value_eq_dec a b); split; congruence.
Qed.

Lemma truthy_false (v : value) : truthy v = false <-> absent_or_empty v.
Proof.
  unfold absent_or_empty. destruct v as [|[|c s]]; simpl; split; auto;
    try discriminate; intros [H | H]; discriminate.
Qed.

Lemma falsy_true (v : value) : falsy v = true <-> absent_or_empty v.
Proof. unfold falsy. rewrite negb_true_iff. apply truthy_false. Qed.

Lemma find_by_username_None (us : list User.t) (u : value) :
  find_by_username us u = None <-> no_record us u.
Proof.
  unfold find_by_username, no_record. split.
  - intros H d Hd E. apply (find_none _ _ H) in Hd.
    apply strict_eq_false in Hd. contradiction.
  - intros H. destruct (find _ us) as [d|] eqn:E; [|reflexivity].
    apply find_some in E as [Hd E]. apply strict_eq_true in E.
    now apply H in Hd.
Qed.

Lemma find_by_username_Some (us : list User.t) (u : value) (d : User.t) :
  find_by_username us u = Some d -> In d us /\ User.username d = u.
Proof.
  unfold find_by_username. intros H. apply find_some in H as [Hd E].
  now apply strict_eq_true in E.
Qed.

Lemma find_by_username_app (us more : list User.t) (u : value) (d : User.t) :
  find_by_username us u = Some d -> find_by_username (us ++ more) u = Some d.
Proof.
  unfold find_by_username. induction us as [|x us IH]; simpl; [discriminate|].
  destruct (strict_eq (User.username x) u); auto.
Qed.

Lemma find_by_username_new (us : list User.t) (d : User.t) :
  find_by_username us (User.username d) = None ->
  find_by_username (us ++ [d]) (User.username d) = Some d.
Proof.
  unfold find_by_username. induction us as [|x us IH]; simpl.
  - intros _. now rewrite (proj2 (strict_eq_true _ _) eq_refl).
  - destruct (strict_eq (User.username x) (User.username d)); [discriminate|].
    exact IH.
Qed.

Lemma first_failure_None (b : Body.t) :
  first_failure b = None <-> passes_validation b = true.
Proof.
  unfold first_failure, passes_validation.
  induction register_checks as [|c cs IH]; simpl.
  - split; reflexivity.
  - destruct (passes c b); simpl; [exact IH | split; discriminate].
Qed.

(** ** The handlers, case by case *)

Lemma login_unfold (b : Body.t) (w : World) :
  login b w =
  if falsy (Body.username b) || falsy (Body.password b)
  then (Ok (res_status_json 400 (Message "Username and password are required")),
        w)
  else
    let w' := {| users := users w;
                 oplog := oplog w ++ [OpFindOne (Body.username b)] |} in
    match find_by_username (users w) (Body.username b) with
    | None => (Ok (res_status_json 404 (Message "User not found")), w')
    | Some d =>
        if strict_eq (User.password d) (Body.password b)
        then (Ok (res_json (Doc d)), w')
        else (Ok (res_status_json 401 (Message "Invalid credentials")), w')
    end.
Proof.
  unfold login, try_catch, bind, findOne, ret.
  destruct (falsy (Body.username b) || falsy (Body.password b));
    [reflexivity|]. simpl.
  destruct (find_by_username (users w) (Body.username b)) as [d|];
    [|reflexivity].
  destruct (strict_eq (User.password d) (Body.password b)); reflexivity.
Qed.

Lemma register_unfold (b : Body.t) (w : World) :
  register b w =
  match first_failure b with
  | Some c => (Ok (res_status_json 400 (Message (message c))), w)
  | None =>
      match find_by_username (users w) (Body.username b) with
      | Some _ =>
          (Ok (res_status_json 400 (Message "Username already taken")),
           {| users := users w;
              oplog := oplog w ++ [OpFindOne (Body.username b)] |})
      | None =>
          (Ok (res_status_json 201 (Doc (document_of b))),
           {| users := users w ++ [document_of b];
              oplog := (oplog w ++ [OpFindOne (Body.username b)])
                         ++ [OpSave (document_of b)] |})
      end
  end.
Proof.
  unfold register, first_failure, register_checks, falsy, document_of.
  unfold try_catch, bind, findOne, save, User.validate. simpl.
  destruct (truthy (Body.firstName b)); simpl; [|reflexivity].
  destruct (RegExp.test fnameRegex (ToString (Body.firstName b))); simpl;
    [|reflexivity].
  destruct (truthy (Body.lastName b)); simpl; [|reflexivity].
  destruct (RegExp.test lnameRegex (ToString (Body.lastName b))); simpl;
    [|reflexivity].
  destruct (truthy (Body.email b)); simpl; [|reflexivity].
  destruct (RegExp.test emailRegex (ToString (Body.email b))); simpl;
    [|reflexivity].
  destruct (truthy (Body.phone b)); simpl; [|reflexivity].
  destruct (RegExp.test phoneNumberRegex (ToString (Body.phone b))); simpl;
    [|reflexivity].
  destruct (truthy (Body.username b)); simpl; [|reflexivity].
  destruct (truthy (Body.password b)); simpl; [|reflexivity].
  destruct (find_by_username (users w) (Body.username b)); reflexivity.
Qed.

Lemma register_rejected (b : Body.t) (w : World) (c : Check) :
  first_failure b = Some c ->
  register b w = (Ok (res_status_json 400 (Message (message c))), w).
Proof. intros H. now rewrite register_unfold, H. Qed.

Lemma register_taken (b : Body.t) (w : World) (d : User.t) :
  passes_validation b = true ->
  find_by_username (users w) (Body.username b) = Some d ->
  register b w =
  (Ok (res_status_json 400 (Message "Username already taken")),
   {| users := users w; oplog := oplog w ++ [OpFindOne (Body.username b)] |}).
Proof.
  intros Hv Hf. apply first_failure_None in Hv.
  now rewrite register_unfold, Hv, Hf.
Qed.

Lemma register_created (b : Body.t) (w : World) :
  passes_validation b = true ->
  find_by_username (users w) (Body.username b) = None ->
  register b w =
  (Ok (res_status_json 201 (Doc (document_of b))),
   {| users := users w ++ [document_of b];
      oplog := (oplog w ++ [OpFindOne (Body.username b)])
                 ++ [OpSave (document_of b)] |}).
Proof.
  intros Hv Hf. apply first_failure_None in Hv.
  now rewrite register_unfold, Hv, Hf.
Qed.

(** The first failing check, found from a split of the list. *)
Lemma first_failure_split (b : Body.t) (pre post : list Check) (c : Check) :
  register_checks = pre ++ c :: post ->
  forallb (fun x => passes x b) pre = true ->
  passes c b = false ->
  first_failure b = Some c.
Proof.
  unfold first_failure. intros -> Hpre Hc.
  induction pre as [|y pre IH]; simpl in *.
  - now rewrite Hc.
  - apply andb_true_iff in Hpre as [Hy Hpre]. rewrite Hy. simpl. auto.
Qed.

(** A handler answers every request, and a request extends the collection
    by at most one document. *)
Lemma handle_effect (rq : Request) (w : World) :
  exists r w', handle rq w = (Ok r, w') /\
    (users w' = users w \/
     exists b, rq = Register b /\ status r = 201 /\
               passes_validation b = true /\
               find_by_username (users w) (Body.username b) = None /\
               users w' = users w ++ [document_of b]).
Proof.
  destruct rq as [b | b]; simpl.
  - rewrite login_unfold.
    destruct (falsy (Body.username b) || falsy (Body.password b)); eauto.
    simpl. destruct (find_by_username (users w) (Body.username b)) as [d|];
      eauto.
    destruct (strict_eq (User.password d) (Body.password b)); eauto.
  - rewrite register_unfold. destruct (first_failure b) as [c|] eqn:Hc; eauto.
    apply first_failure_None in Hc.
    destruct (find_by_username (users w) (Body.username b)) as [d|] eqn:Hf;
      eauto.
    do 2 eexists. split; [reflexivity|]. right. exists b. simpl. auto.
Qed.

Lemma serve_extends (rqs : list Request) :
  forall w, exists added, users (serve rqs w) = users w ++ added.
Proof.
  induction rqs as [|rq rqs IH]; intros w; simpl.
  - exists []. now rewrite app_nil_r.
  - destruct (handle_effect rq w) as (r & w' & E & H). rewrite E. simpl.
    destruct (IH w') as (added & Ha). rewrite Ha.
    destruct H as [-> | (b & _ & _ & _ & _ & ->)].
    + eauto.
    + exists ([document_of b] ++ added). now rewrite app_assoc.
Qed.

Lemma passes_validation_credentials (b : Body.t) :
  passes_validation b = true ->
  truthy (Body.username b) = true /\ truthy (Body.password b) = true.
Proof.
  unfold passes_validation, register_checks. simpl.
  rewrite !andb_true_iff. tauto.
Qed.

(* ================================================================== *)
(** ** Registration followed by login *)

(** C1.  A register request that passes validation and whose username is
    not in the store is answered 201, and any later login with the same
    username and password, whatever requests were served in between, is
    answered 200 with a document whose six fields are those registered. *)
Theorem register_then_login (b : Body.t) (w : World) :
  passes_validation b = true ->
  no_record (users w) (Body.username b) ->
  exists r1 w1,
    register b w = (Ok r1, w1) /\ status r1 = 201 /\
    forall (rqs : list Request) (b' : Body.t),
      Body.username b' = Body.username b ->
      Body.password b' = Body.password b ->
      exists r2 w2 d,
        login b' (serve rqs w1) = (Ok r2, w2) /\
        status r2 = 200 /\ json r2 = Doc d /\ same_fields b d.
Proof.
  intros Hv Hnone. apply find_by_username_None in Hnone.
  rewrite (register_created b w Hv Hnone).
  do 2 eexists. split; [reflexivity|]. split; [reflexivity|].
  intros rqs b' Hu Hp.
  match goal with |- context [serve rqs ?w1] =>
    destruct (serve_extends rqs w1) as (added & Hadd) end.
  simpl in Hadd.
  assert (Hfind : find_by_username (users w ++ [document_of b] ++ added)
                    (Body.username b) = Some (document_of b)).
  { rewrite app_assoc. apply find_by_username_app.
    apply (find_by_username_new (users w) (document_of b)). exact Hnone. }
  apply passes_validation_credentials in Hv as [Tu Tp].
  rewrite login_unfold, Hu, Hp. unfold falsy. rewrite Tu, Tp. simpl.
  rewrite Hadd, <- app_assoc, Hfind. simpl.
  rewrite (proj2 (strict_eq_true _ _) eq_refl).
  do 3 eexists. split; [reflexivity|]. split; [reflexivity|].
  split; [reflexivity|]. unfold same_fields. simpl. tauto.
Qed.

(** The scenario of the specification: Jane Doe registers with an empty
    store and then logs in. *)
Lemma register_then_login_jane :
  passes_validation jane = true /\
  no_record (users empty_world) (Body.username jane) /\
  exists r2 w2 d,
    login (credentials (str "jdoe") (str "pw1"))
      (snd (register jane empty_world)) = (Ok r2, w2) /\
    status r2 = 200 /\ json r2 = Doc d /\ same_fields jane d.
Proof.
  assert (Hv : passes_validation jane = true) by reflexivity.
  assert (Hn : no_record (users empty_world) (Body.username jane))
    by (intros d []).
  split; [exact Hv|]. split; [exact Hn|].
  destruct (register_then_login jane empty_world Hv Hn)
    as (r1 & w1 & E & _ & H).
  rewrite E. exact (H [] _ eq_refl eq_refl).
Defined.

(* ================================================================== *)
(** ** The outcomes of login *)

(** C3, as amended.  Login answers 400 exactly when the username or the
    password is absent or the empty string; otherwise 404 exactly when no
    document has the username; otherwise 401 exactly when the stored
    password differs from the supplied one; otherwise 200. *)
Theorem login_outcomes : login_contract absent_or_empty.
Proof.
  intros b w. rewrite login_unfold.
  destruct (falsy (Body.username b) || falsy (Body.password b)) eqn:Hm.
  - apply orb_true_iff in Hm. rewrite !falsy_true in Hm.
    do 2 eexists. split; [reflexivity|]. simpl.
    repeat split; intros; try tauto; try discriminate.
  - apply orb_false_iff in Hm as [Hu Hp].
    assert (Hs : ~ (absent_or_empty (Body.username b) \/
                    absent_or_empty (Body.password b))).
    { rewrite <- !falsy_true. intros [H | H]; congruence. }
    destruct (find_by_username (users w) (Body.username b)) as [d|] eqn:Hf.
    + destruct (strict_eq (User.password d) (Body.password b)) eqn:He.
      * apply strict_eq_true in He.
        do 2 eexists. split; [reflexivity|]. simpl.
        repeat split; try tauto; try discriminate; eauto.
        -- intros [_ Hn]. apply find_by_username_None in Hn. congruence.
        -- intros [_ (d' & Hd' & Hne)]. congruence.
      * apply strict_eq_false in He.
        do 2 eexists. split; [reflexivity|]. simpl.
        repeat split; try tauto; try discriminate; eauto.
        -- intros [_ Hn]. apply find_by_username_None in Hn. congruence.
        -- intros [_ (d' & Hd' & Heq)]. congruence.
    + do 2 eexists. split; [reflexivity|]. simpl.
      repeat split; try tauto; try discriminate.
      * now apply find_by_username_None.
      * intros [_ (d' & Hd' & _)]. congruence.
      * intros [_ (d' & Hd' & _)]. congruence.
Qed.

(** C3, as stated, fails: a username that is present but empty is answered
    400, not 404, although neither field is absent and no document has that
    username. *)
Lemma login_empty_username_is_not_absent : ~ login_contract absent.
Proof.
  intros H.
  destruct (H (credentials (str "") (str "pw1")) empty_world)
    as (r & w' & E & H400 & _).
  rewrite login_unfold in E. simpl in E. injection E as <- <-.
  destruct (proj1 H400 eq_refl) as [A | A]; discriminate A.
Qed.

(* ================================================================== *)
(** ** Validation order *)

(** C2.  The checks of [register_checks] run in their order, a presence
    check and then a format check for firstName, lastName, email and phone,
    and last the presence of username and password: when a check fails and
    every check before it passes, the response is 400 with that check's
    message, whatever the later checks would say, and no store operation is
    performed.  When no check fails the response is not a validation
    error.  The four patterns accept what the specification says. *)
Theorem register_first_failure_wins :
  (forall (b : Body.t) (w : World) (pre post : list Check) (c : Check),
      register_checks = pre ++ c :: post ->
      forallb (fun x => passes x b) pre = true ->
      passes c b = false ->
      register b w = (Ok (res_status_json 400 (Message (message c))), w)) /\
  (forall (b : Body.t) (w : World),
      passes_validation b = true ->
      exists r w', register b w = (Ok r, w') /\
        (r = res_status_json 400 (Message "Username already taken") \/
         r = res_status_json 201 (Doc (document_of b)))) /\
  (forall s, RegExp.test fnameRegex s = true <-> letters_only s) /\
  (forall s, RegExp.test lnameRegex s = true <-> hyphenated_name s) /\
  (forall s, RegExp.test emailRegex s = true <-> one_label_address s) /\
  (forall s, RegExp.test phoneNumberRegex s = true <-> ten_digits s).
Proof.
  split; [|split].
  - intros b w pre post c E Hpre Hc. apply register_rejected.
    exact (first_failure_split b pre post c E Hpre Hc).
  - intros b w Hv.
    destruct (find_by_username (users w) (Body.username b)) as [d|] eqn:Hf.
    + rewrite (register_taken b w d Hv Hf). eauto.
    + rewrite (register_created b w Hv Hf). eauto.
  - split; [exact fnameRegex_accepts|]. split; [exact lnameRegex_accepts|].
    split; [exact emailRegex_accepts | exact phoneNumberRegex_accepts].
Qed.

(** A body whose first name is fine and whose last name is [Smith2], with
    nothing else supplied: the last-name format check is the first to fail,
    although the email, phone and credentials checks would fail too. *)
Lemma register_first_failure_wins_smith2 :
  register
    {| Body.firstName := str "Jane"; Body.lastName := str "Smith2";
       Body.username := undefined; Body.password := undefined;
       Body.email := undefined; Body.phone := undefined |}
    empty_world =
  (Ok (res_status_json 400 (Message "Last Name should contain only letters")),
   empty_world).
Proof.
  apply (proj1 register_first_failure_wins _ empty_world
           (firstn 3 register_checks) (skipn 4 register_checks)
           (mkCheck LastName
              (fun b => RegExp.test lnameRegex (ToString (Body.lastName b)))
              "Last Name should contain only letters"));
    reflexivity.
Defined.

(* ================================================================== *)
(** ** Duplicate usernames *)

(** C4.  For a register request that passes validation: when a document
    with its username exists the response is 400 and the collection is
    unchanged; when none exists the response is 201 with the new document,
    which is appended to the collection; and a second registration of the
    same username, right after the first, is answered 400. *)
Theorem register_duplicate_or_insert (b : Body.t) (w : World) :
  passes_validation b = true ->
  ((exists d, In d (users w) /\ User.username d = Body.username b) ->
   exists w',
     register b w =
       (Ok (res_status_json 400 (Message "Username already taken")), w') /\
     users w' = users w) /\
  (no_record (users w) (Body.username b) ->
   exists w',
     register b w = (Ok (res_status_json 201 (Doc (document_of b))), w') /\
     same_fields b (document_of b) /\
     users w' = users w ++ [document_of b]) /\
  (forall b2 : Body.t,
     passes_validation b2 = true ->
     Body.username b2 = Body.username b ->
     exists w2,
       register b2 (snd (register b w)) =
         (Ok (res_status_json 400 (Message "Username already taken")), w2) /\
       users w2 = users (snd (register b w))).
Proof.
  intros Hv. split; [|split].
  - intros (d & Hd & Hu).
    destruct (find_by_username (users w) (Body.username b)) as [d'|] eqn:Hf.
    + rewrite (register_taken b w d' Hv Hf). eauto.
    + apply find_by_username_None in Hf. now apply Hf in Hd.
  - intros Hn. apply find_by_username_None in Hn.
    rewrite (register_created b w Hv Hn). eexists. split; [reflexivity|].
    split; [|reflexivity]. unfold same_fields. simpl. tauto.
  - intros b2 Hv2 Hu.
    assert (Hex : exists d,
               find_by_username (users (snd (register b w))) (Body.username b2)
               = Some d).
    { rewrite Hu.
      destruct (find_by_username (users w) (Body.username b)) as [d|] eqn:Hf.
      - rewrite (register_taken b w d Hv Hf). simpl. eauto.
      - rewrite (register_created b w Hv Hf). simpl.
        exists (document_of b).
        apply (find_by_username_new (users w) (document_of b)). exact Hf. }
    destruct Hex as (d & Hd).
    rewrite (register_taken b2 _ d Hv2 Hd). eauto.
Qed.

(** Jane Doe registers twice with an empty store. *)
Lemma register_duplicate_or_insert_jane :
  exists w2,
    register jane (snd (register jane empty_world)) =
      (Ok (res_status_json 400 (Message "Username already taken")), w2) /\
    users w2 = users (snd (register jane empty_world)).
Proof.
  exact (proj2 (proj2 (register_duplicate_or_insert jane empty_world eq_refl))
           jane eq_refl eq_refl).
Defined.

(* ================================================================== *)
(** ** Uniqueness of usernames *)

(** C5.  Every request keeps the usernames of the collection pairwise
    distinct, and so does every sequence of requests served from the empty
    store. *)
Theorem usernames_stay_unique :
  (forall (rq : Request) (w : World),
      unique_usernames (users w) ->
      unique_usernames (users (snd (handle rq w)))) /\
  (forall rqs : list Request,
      unique_usernames (users (serve rqs empty_world))).
Proof.
  assert (Hstep : forall rq w, unique_usernames (users w) ->
                    unique_usernames (users (snd (handle rq w)))).
  { intros rq w Hu. destruct (handle_effect rq w) as (r & w' & E & H).
    rewrite E. simpl.
    destruct H as [-> | (b & _ & _ & _ & Hf & ->)]; [exact Hu|].
    unfold unique_usernames in *. rewrite map_app. simpl.
    apply NoDup_app; [exact Hu | repeat constructor; intros [] |].
    intros u Hin [<- | []]. apply in_map_iff in Hin as (d & Hd & Hin).
    apply find_by_username_None in Hf. now apply (Hf d Hin). }
  split; [exact Hstep|].
  assert (Hall : forall rqs w, unique_usernames (users w) ->
                   unique_usernames (users (serve rqs w))).
  { induction rqs as [|rq rqs IH]; intros w Hu; simpl; auto. }
  intros rqs. apply Hall. constructor.
Qed.

(** Jane Doe registers twice with an empty store: the usernames of the
    collection stay distinct. *)
Lemma usernames_stay_unique_jane :
  unique_usernames
    (users (snd (handle (Register jane) (snd (register jane empty_world))))).
Proof.
  apply (proj1 usernames_stay_unique (Register jane)
           (snd (register jane empty_world))).
  repeat constructor. intros [].
Defined.

(* ================================================================== *)
(** ** What a request may change *)

(** C7.  Login leaves the collection as it is; a register request that is
    not answered 201 leaves it as it is; a request changes the collection
    only when it is a register request answered 201, and then by appending
    one document; so the documents present before any sequence of requests
    are still there afterwards, unchanged and in place. *)
Theorem store_changes_only_on_created :
  (forall (b : Body.t) (w : World), users (snd (login b w)) = users w) /\
  (forall (b : Body.t) (w : World) (r : Response) (w' : World),
      register b w = (Ok r, w') -> status r <> 201 -> users w' = users w) /\
  (forall (rq : Request) (w : World),
      exists r w', handle rq w = (Ok r, w') /\
        (users w' = users w \/
         exists b, rq = Register b /\ status r = 201 /\
                   users w' = users w ++ [document_of b])) /\
  (forall (rqs : list Request) (w : World),
      exists added, users (serve rqs w) = users w ++ added).
Proof.
  split; [|split; [|split]].
  - intros b w. destruct (handle_effect (Login b) w) as (r & w' & E & H).
    simpl in E. rewrite E. simpl.
    destruct H as [H | (b' & Hb & _)]; [exact H | discriminate Hb].
  - intros b w r w' E Hs.
    destruct (handle_effect (Register b) w) as (r0 & w0 & E0 & H).
    simpl in E0. rewrite E in E0. injection E0 as <- <-.
    destruct H as [H | (b' & _ & H201 & _)]; [exact H | contradiction].
  - intros rq w. destruct (handle_effect rq w) as (r & w' & E & H).
    exists r, w'. split; [exact E|].
    destruct H as [H | (b & Hb & H201 & _ & _ & Hu)]; [now left | right].
    exists b. auto.
  - intros rqs w. apply serve_extends.
Qed.

(** Jane Doe registers twice with an empty store: the second request is
    answered 400 and the collection keeps its single document. *)
Lemma store_changes_only_on_created_jane :
  users (snd (register jane (snd (register jane empty_world)))) =
  users (snd (register jane empty_world)).
Proof.
  apply (proj1 (proj2 store_changes_only_on_created) jane
           (snd (register jane empty_world))
           (res_status_json 400 (Message "Username already taken"))).
  - reflexivity.
  - discriminate.
Defined.

(* ================================================================== *)
(** ** The body of a successful login *)

(** C8.  A login answered 200 carries, as its body, the document that the
    collection holds for the username, whole; its password field is the
    stored password, which is the one supplied. *)
Theorem login_returns_stored_document
  (b : Body.t) (w : World) (r : Response) (w' : World) :
  login b w = (Ok r, w') ->
  status r = 200 ->
  exists d,
    json r = Doc d /\
    find_by_username (users w) (Body.username b) = Some d /\
    In d (users w) /\
    User.password d = Body.password b.
Proof.
  rewrite login_unfold. intros E Hs.
  destruct (falsy (Body.username b) || falsy (Body.password b));
    [injection E as <- _; discriminate Hs|].
  simpl in E.
  destruct (find_by_username (users w) (Body.username b)) as [d|] eqn:Hf;
    [|injection E as <- _; discriminate Hs].
  destruct (strict_eq (User.password d) (Body.password b)) eqn:He;
    [|injection E as <- _; discriminate Hs].
  injection E as <- _. exists d. split; [reflexivity|]. split; [reflexivity|].
  split.
  - now apply find_by_username_Some in Hf.
  - now apply strict_eq_true.
Qed.

(** Jane Doe logs in after registering: the body is her document, password
    included. *)
Lemma login_returns_stored_document_jane :
  exists d,
    Doc (document_of jane) = Doc d /\
    find_by_username (users (snd (register jane empty_world))) (str "jdoe")
      = Some d /\
    In d (users (snd (register jane empty_world))) /\
    User.password d = str "pw1".
Proof.
  apply (login_returns_stored_document
           (credentials (str "jdoe") (str "pw1"))
           (snd (register jane empty_world))
           (res_json (Doc (document_of jane)))
           (snd (login (credentials (str "jdoe") (str "pw1"))
                   (snd (register jane empty_world))))).
  - reflexivity.
  - reflexivity.
Defined.

(* ================================================================== *)
(** ** The checks on the specification's inputs *)

Lemma digit_or_space_is_no_letter (c : ascii) :
  is_digit c || is_space c = true -> is_letter c = false.
Proof.
  destruct c as [b0 b1 b2 b3 b4 b5 b6 b7].
  destruct b0, b1, b2, b3, b4, b5, b6, b7; vm_compute; congruence.
Qed.

Lemma some_digit_or_space_not_letters (s : string) :
  some (fun c => is_digit c || is_space c) s = true ->
  s <> "" /\ every is_letter s = false.
Proof.
  induction s as [|c s IH]; simpl; [discriminate|]. intros H.
  split; [discriminate|]. apply orb_true_iff in H as [H | H].
  - now rewrite (digit_or_space_is_no_letter c H).
  - destruct (IH H) as [_ ->]. apply andb_false_r.
Qed.

(** Rewrites the goal with the checks that [reached k b = true] grants. *)
Ltac use_reached Hr :=
  unfold reached in Hr; simpl in Hr; rewrite ?andb_true_iff in Hr;
  decompose [and] Hr; clear Hr;
  repeat match goal with H : _ = true |- _ => rewrite H; clear H end.

(** C6.  A first name that contains a digit or a space is answered with the
    first-name format message, whatever the other fields hold; and the
    last-name, email and phone checks decide the specification's inputs as
    it says, both as checks and in the response of a request that reaches
    them. *)
Theorem checks_on_sample_inputs :
  (forall (b : Body.t) (w : World) (s : string),
      Body.firstName b = str s ->
      some (fun c => is_digit c || is_space c) s = true ->
      register b w =
        (Ok (res_status_json 400
               (Message "First Name should contain only letters")), w)) /\
  RegExp.test lnameRegex "O'Brien-Smith" = true /\
  RegExp.test lnameRegex "Smith2" = false /\
  RegExp.test emailRegex "a@b.co" = true /\
  RegExp.test emailRegex "a@b" = false /\
  RegExp.test phoneNumberRegex "1234567890" = true /\
  RegExp.test phoneNumberRegex "12345" = false /\
  (forall (b : Body.t) (w : World),
      reached KlastName b = true -> Body.lastName b = str "Smith2" ->
      register b w =
        (Ok (res_status_json 400
               (Message "Last Name should contain only letters")), w)) /\
  (forall (b : Body.t) (w : World),
      reached Kemail b = true -> Body.email b = str "a@b" ->
      register b w =
        (Ok (res_status_json 400 (Message "Email format is invalid")), w)) /\
  (forall (b : Body.t) (w : World),
      reached Kphone b = true -> Body.phone b = str "12345" ->
      register b w =
        (Ok (res_status_json 400 (Message "Phone Number must be 10 digits")),
         w)) /\
  passes_validation
    {| Body.firstName := str "Jane"; Body.lastName := str "O'Brien-Smith";
       Body.username := str "jdoe"; Body.password := str "pw1";
       Body.email := str "a@b.co"; Body.phone := str "1234567890" |} = true.
Proof.
  split.
  { intros b w s Hs Hsome.
    apply some_digit_or_space_not_letters in Hsome as [Hne Hnot].
    apply (register_rejected b w
             (mkCheck FirstName
                (fun b => RegExp.test fnameRegex (ToString (Body.firstName b)))
                "First Name should contain only letters")).
    apply (first_failure_split b (firstn 1 register_checks)
             (skipn 2 register_checks)); [reflexivity | |]; simpl; rewrite Hs.
    - destruct s; [congruence | reflexivity].
    - simpl. destruct (RegExp.test fnameRegex s) eqn:Ht; [|reflexivity].
      apply fnameRegex_accepts in Ht as [_ Ht]. congruence. }
  repeat (split; [reflexivity|]).
  split; [|split; [|split; [|reflexivity]]].
  - intros b w Hr Hl.
    apply (register_rejected b w
             (mkCheck LastName
                (fun b => RegExp.test lnameRegex (ToString (Body.lastName b)))
                "Last Name should contain only letters")).
    apply (first_failure_split b (firstn 3 register_checks)
             (skipn 4 register_checks)); [reflexivity | |]; simpl.
    + use_reached Hr. rewrite Hl. reflexivity.
    + rewrite Hl. reflexivity.
  - intros b w Hr He.
    apply (register_rejected b w
             (mkCheck Email
                (fun b => RegExp.test emailRegex (ToString (Body.email b)))
                "Email format is invalid")).
    apply (first_failure_split b (firstn 5 register_checks)
             (skipn 6 register_checks)); [reflexivity | |]; simpl.
    + use_reached Hr. rewrite He. reflexivity.
    + rewrite He. reflexivity.
  - intros b w Hr Hp.
    apply (register_rejected b w
             (mkCheck Phone
                (fun b => RegExp.test phoneNumberRegex (ToString (Body.phone b)))
                "Phone Number must be 10 digits")).
    apply (first_failure_split b (firstn 7 register_checks)
             (skipn 8 register_checks)); [reflexivity | |]; simpl.
    + use_reached Hr. rewrite Hp. reflexivity.
    + rewrite Hp. reflexivity.
Qed.

(** A first name with a space in it, in an otherwise valid request. *)
Lemma checks_on_sample_inputs_space :
  register (set KfirstName (str "Ja ne") jane) empty_world =
  (Ok (res_status_json 400 (Message "First Name should contain only letters")),
   empty_world).
Proof.
  apply (proj1 checks_on_sample_inputs _ empty_world "Ja ne"); reflexivity.
Defined.

(* ================================================================== *)
(** ** Empty strings *)

(** Case analysis on every check of the goal that reads a field of [b]. *)
Ltac case_checks b :=
  repeat match goal with
         | |- context [truthy (?f b)] => destruct (truthy (f b)); simpl
         | |- context [RegExp.test ?r (ToString (?f b))] =>
             destruct (RegExp.test r (ToString (f b))); simpl
         end.

Lemma first_failure_empty (k : Key) (b : Body.t) :
  first_failure (set k (str "") b) = first_failure (set k undefined b) /\
  first_failure (set k (str "") b) <> None.
Proof.
  unfold first_failure, register_checks.
  destruct k; simpl; case_checks b; split; try reflexivity; try discriminate.
Qed.

Lemma first_failure_of_empty (k : Key) (b : Body.t) :
  get k b = str "" ->
  exists c : Check,
    first_failure b = Some c /\
    In c register_checks /\
    rank (field c) <= rank (field_of k) /\
    Some (message c) <> format_message k.
Proof.
  intros Hget. unfold first_failure, register_checks.
  destruct k; simpl in Hget; simpl; rewrite Hget; simpl; case_checks b;
    eexists; (split; [reflexivity|]);
    (split; [repeat (try (left; reflexivity); right)|]);
    (split; [simpl; lia | simpl; discriminate]).
Qed.

Lemma login_ignores_other_keys (k : Key) (v1 v2 : value) (b : Body.t) (w : World) :
  falsy v1 = true -> falsy v2 = true ->
  login (set k v1 b) w = login (set k v2 b) w.
Proof.
  intros H1 H2. rewrite !login_unfold.
  destruct k; simpl; try reflexivity.
  - now rewrite H1, H2.
  - now rewrite H1, H2, !orb_true_r.
Qed.

(** C9.  The empty string is treated as an absent field.  Login with an
    empty username or password is answered 400 with the missing-credentials
    message and performs no store operation.  Replacing the empty string by
    [undefined] in any field changes neither handler's result.  A register
    request with an empty field whose checks are reached is answered 400
    with that field's required message; and whatever the other fields
    hold, a register request with an empty field is answered 400 by a check
    of that field or of an earlier one, never with that field's format
    message, and performs no store operation. *)
Theorem empty_string_is_absent :
  (forall (b : Body.t) (w : World),
      Body.username b = str "" \/ Body.password b = str "" ->
      login b w =
        (Ok (res_status_json 400
               (Message "Username and password are required")), w)) /\
  (forall (k : Key) (b : Body.t) (w : World),
      login (set k (str "") b) w = login (set k undefined b) w) /\
  (forall (k : Key) (b : Body.t) (w : World),
      register (set k (str "") b) w = register (set k undefined b) w) /\
  (forall (k : Key) (b : Body.t) (w : World),
      get k b = str "" -> reached k b = true ->
      register b w =
        (Ok (res_status_json 400 (Message (required_message k))), w)) /\
  (forall (k : Key) (b : Body.t) (w : World),
      get k b = str "" ->
      exists c : Check,
        In c register_checks /\
        rank (field c) <= rank (field_of k) /\
        Some (message c) <> format_message k /\
        register b w = (Ok (res_status_json 400 (Message (message c))), w)).
Proof.
  split; [|split; [|split; [|split]]].
  - intros b w H. rewrite login_unfold.
    destruct H as [-> | ->]; simpl; [reflexivity|].
    now rewrite orb_true_r.
  - intros k b w. now apply login_ignores_other_keys.
  - intros k b w. rewrite !register_unfold.
    destruct (first_failure_empty k b) as [E Hne]. rewrite <- E.
    destruct (first_failure (set k (str "") b)); [reflexivity | congruence].
  - intros k b w Hget Hr. rewrite register_unfold.
    unfold first_failure, register_checks.
    destruct k; simpl in Hget; simpl; use_reached Hr; rewrite Hget; simpl;
      try reflexivity.
    now rewrite andb_false_r.
  - intros k b w Hget.
    destruct (first_failure_of_empty k b Hget) as (c & Hc & Hin & Hrk & Hm).
    exists c. repeat split; auto. now apply register_rejected.
Qed.

(** An otherwise valid registration with an empty email. *)
Lemma empty_string_is_absent_email :
  register (set Kemail (str "") jane) empty_world =
  (Ok (res_status_json 400 (Message "Email is required")), empty_world).
Proof.
  apply (proj1 (proj2 (proj2 (proj2 empty_string_is_absent))) Kemail
           (set Kemail (str "") jane) empty_world); reflexivity.
Defined.

(* ================================================================== *)
(** ** Multi-label email domains *)

Lemma no_dot_in_class (cs : list RegExp.item) (s : string) :
  RegExp.in_class cs "." = false ->
  every (RegExp.in_class cs) s = true ->
  some (Ascii.eqb ".") s = false.
Proof.
  intros Hdot. induction s as [|c s IH]; cbn [some every]; [reflexivity|].
  intros H. apply andb_true_iff in H as [Hc Hs]. rewrite (IH Hs).
  destruct (Ascii.eqb_spec "." c) as [<- | _]; [congruence | reflexivity].
Qed.

(** C10.  An address the email pattern accepts is [local@label.tld] where
    the label is not empty, neither the label nor the top-level domain
    contains a dot, and the top-level domain has two to six characters: the
    domain has exactly one label before its top-level domain.  So
    [a@mail.example.com] fails the pattern, and a register request that
    reaches the email checks with it is answered 400 with the email-format
    message, while [a@example.com] passes and registers. *)
Theorem email_domain_has_one_label :
  (forall s : string,
      RegExp.test emailRegex s = true ->
      exists local label tld : string,
        s = (local ++ "@" ++ label ++ "." ++ tld)%string /\
        local <> "" /\ some (Ascii.eqb "@") local = false /\
        label <> "" /\ some (Ascii.eqb ".") label = false /\
        some (Ascii.eqb ".") tld = false /\
        2 <= String.length tld <= 6) /\
  RegExp.test emailRegex "a@mail.example.com" = false /\
  RegExp.test emailRegex "a@example.com" = true /\
  (forall (b : Body.t) (w : World),
      reached Kemail b = true ->
      Body.email b = str "a@mail.example.com" ->
      register b w =
        (Ok (res_status_json 400 (Message "Email format is invalid")), w)) /\
  (exists w',
      register (set Kemail (str "a@example.com") jane) empty_world =
        (Ok (res_status_json 201
               (Doc (document_of (set Kemail (str "a@example.com") jane)))),
         w')).
Proof.
  split; [|split; [reflexivity | split; [reflexivity | split]]].
  - intros s H. apply emailRegex_accepts in H
      as (local & label & tld & E & Hl & Hl' & Hb & Hb' & Hlen & Ht).
    exists local, label, tld. repeat split; auto; try lia.
    + clear - Hl'. induction local as [|c local IH]; cbn [some every];
        [reflexivity|].
      cbn [every] in Hl'. apply andb_true_iff in Hl' as [Hc Hs].
      rewrite (IH Hs).
      destruct (Ascii.eqb_spec "@" c) as [<- | _];
        [discriminate Hc | reflexivity].
    + now apply (no_dot_in_class [RegExp.word; RegExp.one "-"]).
    + apply (no_dot_in_class [RegExp.word]); [reflexivity|].
      now rewrite (every_ext _ _ tld in_class_word).
  - intros b w Hr He.
    apply (register_rejected b w
             (mkCheck Email
                (fun b => RegExp.test emailRegex (ToString (Body.email b)))
                "Email format is invalid")).
    apply (first_failure_split b (firstn 5 register_checks)
             (skipn 6 register_checks)); [reflexivity | |]; simpl.
    + use_reached Hr. rewrite He. reflexivity.
    + rewrite He. reflexivity.
  - eexists. reflexivity.
Qed.

(** An otherwise valid registration with a two-label domain. *)
Lemma email_domain_has_one_label_mail :
  register (set Kemail (str "a@mail.example.com") jane) empty_world =
  (Ok (res_status_json 400 (Message "Email format is invalid")), empty_world).
Proof.
  apply (proj1 (proj2 (proj2 (proj2 email_domain_has_one_label)))
           (set Kemail (str "a@mail.example.com") jane) empty_world);
    reflexivity.
Defined.

(* ================================================================== *)
(** * Further properties of the server *)

Lemma passes_validation_fields (b : Body.t) :
  passes_validation b = true ->
  truthy (Body.firstName b) = true /\
  RegExp.test fnameRegex (ToString (Body.firstName b)) = true /\
  truthy (Body.lastName b) = true /\
  RegExp.test lnameRegex (ToString (Body.lastName b)) = true /\
  truthy (Body.email b) = true /\
  RegExp.test emailRegex (ToString (Body.email b)) = true /\
  truthy (Body.phone b) = true /\
  RegExp.test phoneNumberRegex (ToString (Body.phone b)) = true /\
  truthy (Body.username b) = true /\
  truthy (Body.password b) = true.
Proof.
  unfold passes_validation, register_checks. simpl.
  rewrite !andb_true_iff. tauto.
Qed.

Lemma truthy_str (v : value) :
  truthy v = true -> exists s, v = str s /\ s <> "" /\ ToString v = s.
Proof.
  destruct v as [|[|c s]]; simpl; try discriminate. intros _.
  eexists. split; [reflexivity|]. split; [discriminate | reflexivity].
Qed.

Lemma passes_validation_well_formed (b : Body.t) :
  passes_validation b = true -> well_formed (document_of b).
Proof.
  intros H. apply passes_validation_fields in H
    as (Hfn & Tfn & Hln & Tln & Hem & Tem & Hph & Tph & Hun & Hpw).
  apply truthy_str in Hfn as (fn & Efn & _ & Sfn).
  apply truthy_str in Hln as (ln & Eln & _ & Sln).
  apply truthy_str in Hem as (em & Eem & _ & Sem).
  apply truthy_str in Hph as (ph & Eph & _ & Sph).
  apply truthy_str in Hun as (un & Eun & Nun & _).
  apply truthy_str in Hpw as (pw & Epw & Npw & _).
  rewrite Sfn in Tfn. rewrite Sln in Tln. rewrite Sem in Tem.
  rewrite Sph in Tph.
  exists fn, ln, un, pw, em, ph. unfold document_of.
  rewrite Efn, Eln, Eun, Epw, Eem, Eph. split; [reflexivity|].
  split; [now apply fnameRegex_accepts|].
  split; [now apply lnameRegex_accepts|].
  split; [exact Nun|]. split; [exact Npw|].
  split; [now apply emailRegex_accepts | now apply phoneNumberRegex_accepts].
Qed.



(** X2.  Every request keeps the documents of the collection well formed
    (six non-empty strings, the first name, last name, email and phone of
    the shapes their patterns describe), and so is every document of a
    collection served from the empty store. *)
Theorem stored_documents_are_well_formed :
  (forall (rq : Request) (w : World),
      Forall well_formed (users w) ->
      Forall well_formed (users (snd (handle rq w)))) /\
  (forall rqs : list Request,
      Forall well_formed (users (serve rqs empty_world))).
Proof.
  assert (Hstep : forall rq w, Forall well_formed (users w) ->
                    Forall well_formed (users (snd (handle rq w)))).
  { intros rq w Hw. destruct (handle_effect rq w) as (r & w' & E & H).
    rewrite E. simpl.
    destruct H as [-> | (b & _ & _ & Hv & _ & ->)]; [exact Hw|].
    apply Forall_app. split; [exact Hw|]. constructor; [|constructor].
    now apply passes_validation_well_formed. }
  split; [exact Hstep|].
  assert (Hall : forall rqs w, Forall well_formed (users w) ->
                   Forall well_formed (users (serve rqs w))).
  { induction rqs as [|rq rqs IH]; intros w Hw; simpl; auto. }
  intros rqs. apply Hall. constructor.
Qed.

(** After Jane Doe registers and a second request is served, the documents
    are well formed. *)
Lemma stored_documents_are_well_formed_jane :
  Forall well_formed
    (users (snd (handle (Login jane) (snd (register jane empty_world))))).
Proof.
  apply (proj1 stored_documents_are_well_formed (Login jane)
           (snd (register jane empty_world))).
  constructor; [|constructor].
  apply (passes_validation_well_formed jane). reflexivity.
Defined.

(** X3.  An account is never replaced: the document that the collection
    holds for a username is still the one it holds after any sequence of
    requests, so a login with its password is still answered 200 with
    it. *)
Theorem accounts_are_never_replaced
  (w : World) (u : value) (d : User.t) (rqs : list Request) :
  find_by_username (users w) u = Some d ->
  find_by_username (users (serve rqs w)) u = Some d /\
  (truthy u = true -> truthy (User.password d) = true ->
   exists w',
     login (credentials u (User.password d)) (serve rqs w) =
       (Ok (res_json (Doc d)), w')).
Proof.
  intros Hf. destruct (serve_extends rqs w) as (added & Ha).
  assert (Hf' : find_by_username (users (serve rqs w)) u = Some d).
  { rewrite Ha. now apply find_by_username_app. }
  split; [exact Hf'|]. intros Tu Tp. rewrite login_unfold. simpl.
  unfold falsy. rewrite Tu, Tp. simpl. rewrite Hf'.
  rewrite (proj2 (strict_eq_true _ _) eq_refl). eauto.
Qed.

(** Jane Doe's account survives a second registration under her username
    with another password. *)
Lemma accounts_are_never_replaced_jane :
  find_by_username
    (users (serve [Register (set Kpassword (str "other") jane)]
              (snd (register jane empty_world))))
    (str "jdoe") = Some (document_of jane).
Proof.
  apply (accounts_are_never_replaced (snd (register jane empty_world))
           (str "jdoe") (document_of jane)
           [Register (set Kpassword (str "other") jane)]).
  reflexivity.
Defined.

(** X12.  Registrations under different usernames do not interfere: a
    valid body whose username is free and differs from the username of a
    request just served is answered 201, whatever that request was and
    however it was answered.  Uniqueness is checked on the username alone:
    the body that differs from a registered one only in its username
    registers too, with the same email and phone. *)
Theorem other_usernames_stay_free (w : World) (b1 b2 : Body.t) :
  passes_validation b2 = true ->
  no_record (users w) (Body.username b2) ->
  Body.username b1 <> Body.username b2 ->
  exists w',
    register b2 (snd (register b1 w)) =
      (Ok (res_status_json 201 (Doc (document_of b2))), w') /\
    User.email (document_of b2) = Body.email b2 /\
    User.phone (document_of b2) = Body.phone b2.
Proof.
  intros Hv Hn Hne.
  assert (Hn' : no_record (users (snd (register b1 w))) (Body.username b2)).
  { destruct (handle_effect (Register b1) w) as (r & w1 & E & H).
    simpl in E. rewrite E. simpl.
    destruct H as [-> | (b & Hb & _ & _ & _ & ->)]; [exact Hn|].
    injection Hb as <-. intros d Hd.
    apply in_app_or in Hd as [Hd | [<- | []]]; [now apply Hn | exact Hne]. }
  apply find_by_username_None in Hn'.
  rewrite (register_created b2 _ Hv Hn'). eauto.
Qed.

(** A second account with Jane Doe's email and phone. *)
Lemma other_usernames_stay_free_jane :
  exists w',
    register (set Kusername (str "jdoe2") jane)
      (snd (register jane empty_world)) =
      (Ok (res_status_json 201
             (Doc (document_of (set Kusername (str "jdoe2") jane)))), w') /\
    User.email (document_of (set Kusername (str "jdoe2") jane))
      = str "jane@doe.com" /\
    User.phone (document_of (set Kusername (str "jdoe2") jane))
      = str "5551234567".
Proof.
  apply (other_usernames_stay_free empty_world jane
           (set Kusername (str "jdoe2") jane)).
  - reflexivity.
  - intros d [].
  - discriminate.
Defined.

(** ** Names and addresses *)

Lemma append_empty_r (p : string) : (p ++ "")%string = p.
Proof. induction p as [|c p IH]; simpl; [reflexivity | now rewrite IH]. Qed.

Lemma last_char_app (a b : string) :
  b <> "" -> last_char (a ++ b) = last_char b.
Proof.
  intros Hb. induction a as [|c a IH]; [reflexivity|].
  change (String c a ++ b)%string with (String c (a ++ b)).
  cbn [last_char]. rewrite IH.
  destruct (a ++ b)%string eqn:E; [|reflexivity].
  destruct a; simpl in E; [congruence | discriminate].
Qed.

Lemma letters_only_last (q : string) :
  letters_only q -> exists z, last_char q = Some z /\ is_letter z = true.
Proof.
  intros [Hne Hall]. induction q as [|c q IH]; [congruence|].
  cbn [every] in Hall. apply andb_true_iff in Hall as [Hc Hq].
  destruct q as [|c' q'].
  - exists c. auto.
  - destruct IH as (z & Hz & Lz); [discriminate | exact Hq |].
    exists z. split; [exact Hz | exact Lz].
Qed.

Lemma join_parts_last (gs : list (ascii * string)) :
  Forall name_part gs -> gs <> [] ->
  join_parts gs <> "" /\
  exists z, last_char (join_parts gs) = Some z /\ is_letter z = true.
Proof.
  induction 1 as [|g gs Hg Hgs IH]; [congruence|]. intros _.
  split; [discriminate|]. destruct Hg as [_ Hq].
  cbn [join_parts fold_right].
  change (fold_right
            (fun g acc => String (fst g) (snd g ++ acc)%string) "" gs)
    with (join_parts gs).
  assert (Hne : (snd g ++ join_parts gs)%string <> "").
  { destruct Hq as [Hne _]. destruct (snd g); [congruence | discriminate]. }
  assert (Hlast : last_char (String (fst g) (snd g ++ join_parts gs))
                  = last_char (snd g ++ join_parts gs)%string).
  { cbn [last_char]. destruct (snd g ++ join_parts gs)%string;
      [congruence | reflexivity]. }
  rewrite Hlast. destruct gs as [|g' gs'].
  - simpl. rewrite append_empty_r. now apply letters_only_last.
  - destruct IH as [Hj Hz]; [discriminate|]. now rewrite last_char_app.
Qed.

(** X4.  Every first name the first-name pattern accepts is accepted by the
    last-name pattern, and an accepted last name begins and ends with a
    letter: a separator is never its first or its last character. *)
Theorem names_begin_and_end_with_letters :
  (forall s : string,
      RegExp.test fnameRegex s = true -> RegExp.test lnameRegex s = true) /\
  (forall s : string,
      RegExp.test lnameRegex s = true ->
      exists a z : ascii,
        first_char s = Some a /\ is_letter a = true /\
        last_char s = Some z /\ is_letter z = true).
Proof.
  split.
  - intros s H. apply fnameRegex_accepts in H. apply lnameRegex_accepts.
    exists s, []. simpl. rewrite append_empty_r. auto.
  - intros s H. apply lnameRegex_accepts in H as (p & gs & -> & Hp & Hgs).
    assert (Hfirst : exists a, first_char (p ++ join_parts gs) = Some a /\
                               is_letter a = true).
    { destruct Hp as [Hne Hall]. destruct p as [|c p]; [congruence|].
      cbn [every] in Hall. apply andb_true_iff in Hall as [Hc _].
      exists c. auto. }
    destruct Hfirst as (a & Ha & La). exists a.
    destruct gs as [|g gs].
    + simpl. rewrite append_empty_r in *.
      destruct (letters_only_last p Hp) as (z & Hz & Lz). exists z. auto.
    + destruct (join_parts_last (g :: gs) Hgs) as [Hne (z & Hz & Lz)];
        [discriminate|].
      exists z. rewrite (last_char_app p _ Hne). auto.
Qed.

(** The last name of the specification's example. *)
Lemma names_begin_and_end_with_letters_obrien :
  exists a z : ascii,
    first_char "O'Brien-Smith" = Some a /\ is_letter a = true /\
    last_char "O'Brien-Smith" = Some z /\ is_letter z = true.
Proof.
  apply (proj2 names_begin_and_end_with_letters "O'Brien-Smith").
  reflexivity.
Defined.

Lemma every_app (p : ascii -> bool) (a b : string) :
  every p (a ++ b) = every p a && every p b.
Proof.
  induction a as [|c a IH]; [reflexivity|].
  change (String c a ++ b)%string with (String c (a ++ b)).
  cbn [every]. now rewrite IH, andb_assoc.
Qed.

Lemma every_weaken (p q : ascii -> bool) (s : string) :
  (forall c, p c = true -> q c = true) ->
  every p s = true -> every q s = true.
Proof.
  intros Hpq. induction s as [|c s IH]; cbn [every]; [reflexivity|].
  intros H. apply andb_true_iff in H as [Hc Hs].
  now rewrite (Hpq c Hc), (IH Hs).
Qed.

Lemma occurrences_app (c : ascii) (a b : string) :
  occurrences c (a ++ b) = occurrences c a + occurrences c b.
Proof.
  induction a as [|x a IH]; [reflexivity|].
  change (String x a ++ b)%string with (String x (a ++ b)).
  cbn [occurrences]. rewrite IH. lia.
Qed.

Lemma occurrences_outside (p : ascii -> bool) (c : ascii) (s : string) :
  p c = false -> every p s = true -> occurrences c s = 0.
Proof.
  intros Hc. induction s as [|x s IH]; cbn [every occurrences];
    [reflexivity|].
  intros H. apply andb_true_iff in H as [Hx Hs]. rewrite (IH Hs).
  destruct (Ascii.eqb_spec x c) as [-> | _]; [congruence | reflexivity].
Qed.

(** X5.  An address the email pattern accepts contains exactly one [@] and
    no character other than letters, digits, [_], [-], [.] and [@]. *)
Theorem email_has_one_at_sign (s : string) :
  RegExp.test emailRegex s = true ->
  occurrences "@" s = 1 /\
  every (RegExp.in_class
           [RegExp.word; RegExp.one "-"; RegExp.one "."; RegExp.one "@"]) s
    = true.
Proof.
  intros H. apply emailRegex_accepts in H
    as (local & label & tld & -> & _ & Hl & _ & Hb & _ & Ht).
  split.
  - rewrite !occurrences_app.
    rewrite (occurrences_outside _ "@" local eq_refl Hl).
    rewrite (occurrences_outside _ "@" label eq_refl Hb).
    rewrite (occurrences_outside _ "@" tld eq_refl Ht).
    reflexivity.
  - rewrite !every_app.
    assert (Hsub : forall cs, (forall i, In i cs ->
                     In i [RegExp.word; RegExp.one "-"; RegExp.one "."]) ->
                   forall c, RegExp.in_class cs c = true ->
                   RegExp.in_class
                     [RegExp.word; RegExp.one "-"; RegExp.one "."; RegExp.one "@"]
                     c = true).
    { intros cs Hcs c Hc. unfold RegExp.in_class in *.
      apply existsb_exists in Hc as (i & Hi & Hci).
      apply existsb_exists. exists i. split; [|exact Hci].
      apply Hcs in Hi. simpl in *. tauto. }
    rewrite (every_weaken _ _ local
               (Hsub _ (fun i Hi => Hi)) Hl).
    rewrite (every_weaken _ _ label
               (Hsub [RegExp.word; RegExp.one "-"]
                  (fun i Hi => ltac:(simpl in *; tauto))) Hb).
    assert (Ht' : every (RegExp.in_class [RegExp.word]) tld = true)
      by (now rewrite (every_ext _ _ tld in_class_word)).
    rewrite (every_weaken _ _ tld
               (Hsub [RegExp.word]
                  (fun i Hi => ltac:(simpl in *; tauto))) Ht').
    reflexivity.
Qed.

(** The email of the specification's scenario. *)
Lemma email_has_one_at_sign_jane :
  occurrences "@" "jane@doe.com" = 1 /\
  every (RegExp.in_class
           [RegExp.word; RegExp.one "-"; RegExp.one "."; RegExp.one "@"])
    "jane@doe.com" = true.
Proof.
  apply (email_has_one_at_sign "jane@doe.com"). reflexivity.
Defined.

(* ================================================================== *)
(** * Properties of the client *)

Lemma falsy_false (v : value) : falsy v = false <-> ~ absent_or_empty v.
Proof.
  rewrite <- falsy_true. destruct (falsy v); split; congruence.
Qed.

(** X6.  What a click on login does.  With a blank username or password
    no request is sent and the form asks for both.  Otherwise the server is
    asked once, the collection stays as it is, and either the page shows the
    server's message, "User not found" or "Invalid credentials", with the
    session untouched, or the current user becomes the stored document and
    the location /profile.  The server's own missing-credentials answer and
    the fallback message never show. *)
Theorem client_login_outcome
  (r : Client.Root) (s : Client.AuthScope) (w : World) :
  let u := Body.username (Client.loginUser s) in
  let p := Body.password (Client.loginUser s) in
  let blank := absent_or_empty u \/ absent_or_empty p in
  exists r' s' w',
    Client.login r s w = (r', s', w') /\
    users w' = users w /\
    (blank ->
     r' = r /\ w' = w /\
     s' = Client.set_errorMessage "Please enter username and password." s) /\
    (~ blank ->
     oplog w' = oplog w ++ [OpFindOne u]) /\
    (~ blank -> no_record (users w) u ->
     r' = r /\ s' = Client.set_errorMessage "User not found" s) /\
    (~ blank ->
     forall d, find_by_username (users w) u = Some d ->
               User.password d <> p ->
     r' = r /\ s' = Client.set_errorMessage "Invalid credentials" s) /\
    (~ blank ->
     forall d, find_by_username (users w) u = Some d ->
               User.password d = p ->
     r' = Client.location_path "/profile"
            (Client.set_currentUser (Client.Object (Doc d) undefined) r) /\
     s' = s).
Proof.
  intros u p blank. unfold Client.login, Client.post_api_login.
  fold u p. rewrite login_unfold. simpl. fold u p.
  destruct (falsy u || falsy p) eqn:Hg.
  - assert (Hb : blank).
    { apply orb_true_iff in Hg. now rewrite !falsy_true in Hg. }
    do 3 eexists. split; [reflexivity|]. split; [reflexivity|].
    repeat split; auto; intros; contradiction.
  - assert (Hb : ~ blank).
    { apply orb_false_iff in Hg as [Hu Hp]. apply falsy_false in Hu, Hp.
      intros [H | H]; contradiction. }
    destruct (find_by_username (users w) u) as [d|] eqn:Hf.
    + destruct (strict_eq (User.password d) p) eqn:He.
      * apply strict_eq_true in He.
        do 3 eexists. split; [reflexivity|]. split; [reflexivity|].
        split; [intros; contradiction|]. split; [reflexivity|].
        split; [|split].
        -- intros _ Hn. apply find_by_username_None in Hn. congruence.
        -- intros _ d' Hd' Hne. congruence.
        -- intros _ d' Hd' _. injection Hd' as <-. auto.
      * apply strict_eq_false in He.
        do 3 eexists. split; [reflexivity|]. split; [reflexivity|].
        split; [intros; contradiction|]. split; [reflexivity|].
        split; [|split].
        -- intros _ Hn. apply find_by_username_None in Hn. congruence.
        -- intros _ d' Hd' _. auto.
        -- intros _ d' Hd' Heq. congruence.
    + do 3 eexists. split; [reflexivity|]. split; [reflexivity|].
      split; [intros; contradiction|]. split; [reflexivity|].
      split; [|split].
      * auto.
      * intros _ d' Hd'. discriminate.
      * intros _ d' Hd'. discriminate.
Qed.

(** Jane Doe logs in through the form after registering. *)
Lemma client_login_outcome_jane :
  fst (fst (Client.login
              (Client.mkRoot Client.Null false "/login" [])
              (Client.mkAuthScope None (credentials (str "jdoe") (str "pw1"))
                 Client.empty_object "")
              (snd (register jane empty_world)))) =
  Client.mkRoot (Client.Object (Doc (document_of jane)) undefined) false
    "/profile" [].
Proof.
  destruct (client_login_outcome
              (Client.mkRoot Client.Null false "/login" [])
              (Client.mkAuthScope None (credentials (str "jdoe") (str "pw1"))
                 Client.empty_object "")
              (snd (register jane empty_world)))
    as (r' & s' & w' & E & _ & _ & _ & _ & _ & H).
  rewrite E. simpl.
  destruct (H ltac:(intros [[A | A] | [A | A]]; discriminate A)
              (document_of jane) eq_refl eq_refl) as [-> _].
  reflexivity.
Defined.

Lemma client_register_guard (b : Body.t) :
  falsy (Body.username b) || falsy (Body.password b)
  || falsy (Body.firstName b) || falsy (Body.lastName b)
  || falsy (Body.email b) || falsy (Body.phone b) = true <->
  exists k, absent_or_empty (get k b).
Proof.
  rewrite !orb_true_iff, !falsy_true. split.
  - intros [[[[[H | H] | H] | H] | H] | H];
      [exists Kusername | exists Kpassword | exists KfirstName
       | exists KlastName | exists Kemail | exists Kphone]; exact H.
  - intros ([] & H); simpl in H; tauto.
Qed.

(** X7.  What a click on register does.  With a blank field no request is
    sent and the form asks for all fields.  Otherwise the server is asked:
    a failed format check shows that check's message and leaves the store
    untouched, a taken username shows "Username already taken" and leaves
    the collection as it is, and a success appends the document, makes it
    the current user and sets the location to /profile.  The server's
    required messages and the fallback message never show. *)
Theorem client_register_outcome
  (r : Client.Root) (s : Client.AuthScope) (w : World) :
  let b := Client.newUser s in
  let blank := exists k, absent_or_empty (get k b) in
  exists r' s' w',
    Client.register r s w = (r', s', w') /\
    (blank ->
     r' = r /\ w' = w /\
     s' = Client.set_errorMessage "Please fill in all fields." s) /\
    (~ blank ->
     forall c, first_failure b = Some c ->
     r' = r /\ w' = w /\ s' = Client.set_errorMessage (message c) s /\
     In (message c)
        [ "First Name should contain only letters";
          "Last Name should contain only letters";
          "Email format is invalid";
          "Phone Number must be 10 digits" ]) /\
    (passes_validation b = true ->
     forall d, find_by_username (users w) (Body.username b) = Some d ->
     r' = r /\ users w' = users w /\
     s' = Client.set_errorMessage "Username already taken" s) /\
    (passes_validation b = true ->
     no_record (users w) (Body.username b) ->
     r' = Client.location_path "/profile"
            (Client.set_currentUser
               (Client.Object (Doc (document_of b)) undefined) r) /\
     s' = s /\ users w' = users w ++ [document_of b]).
Proof.
  intros b blank. unfold Client.register, Client.post_api_register. fold b.
  destruct (falsy (Body.username b) || falsy (Body.password b)
            || falsy (Body.firstName b) || falsy (Body.lastName b)
            || falsy (Body.email b) || falsy (Body.phone b)) eqn:Hg.
  - assert (Hb : blank) by (now apply client_register_guard).
    do 3 eexists. split; [reflexivity|]. split; [auto|].
    split; [intros; contradiction|].
    assert (Hnv : passes_validation b = true -> False).
    { intros Hv. apply passes_validation_fields in Hv
        as (Hfn & _ & Hln & _ & Hem & _ & Hph & _ & Hun & Hpw).
      unfold falsy in Hg. rewrite Hfn, Hln, Hem, Hph, Hun, Hpw in Hg.
      discriminate. }
    split; intros Hv; contradiction.
  - assert (Hb : ~ blank).
    { intros H. apply client_register_guard in H. fold b in H. congruence. }
    rewrite register_unfold. fold b.
    destruct (first_failure b) as [c|] eqn:Hc.
    + assert (Hnv : passes_validation b = true -> False).
      { intros Hv. apply first_failure_None in Hv. congruence. }
      assert (Hm : In (message c)
                [ "First Name should contain only letters";
                  "Last Name should contain only letters";
                  "Email format is invalid";
                  "Phone Number must be 10 digits" ]).
      { apply orb_false_iff in Hg as [Hg Hph].
        apply orb_false_iff in Hg as [Hg Hem].
        apply orb_false_iff in Hg as [Hg Hln].
        apply orb_false_iff in Hg as [Hg Hfn].
        apply orb_false_iff in Hg as [Hun Hpw].
        unfold falsy in *. apply negb_false_iff in Hph, Hem, Hln, Hfn, Hun, Hpw.
        revert Hc. unfold first_failure, register_checks. simpl.
        rewrite Hph, Hem, Hln, Hfn, Hun, Hpw. simpl. case_checks b;
          intros E; try discriminate; injection E as <-; simpl; auto 10. }
      assert (Hor : Client.or_else (str (message c)) "Registration failed."
                    = message c).
      { simpl in Hm.
        destruct Hm as [<- | [<- | [<- | [<- | []]]]]; reflexivity. }
      unfold Client.resolves, res_status_json.
      cbn [status json Client.message_of].
      change (Nat.leb 200 400 && Nat.ltb 400 300) with false. cbv iota.
      rewrite Hor.
      do 3 eexists. split; [reflexivity|]. split; [intros; contradiction|].
      split.
      { intros _ c' E. injection E as <-. auto. }
      split; intros Hv; contradiction.
    + pose proof (proj1 (first_failure_None b) Hc) as Hv.
      destruct (find_by_username (users w) (Body.username b)) as [d|] eqn:Hf.
      * do 3 eexists. split; [reflexivity|]. split; [intros; contradiction|].
        split; [intros _ c' E; discriminate|]. split.
        -- intros _ d' _. simpl. auto.
        -- intros _ Hn. apply find_by_username_None in Hn. congruence.
      * do 3 eexists. split; [reflexivity|]. split; [intros; contradiction|].
        split; [intros _ c' E; discriminate|]. split.
        -- intros _ d' E. discriminate.
        -- intros _ _. simpl. auto.
Qed.

(** Jane Doe registers through the form. *)
Lemma client_register_outcome_jane :
  fst (fst (Client.register
              (Client.mkRoot Client.Null false "/login" [])
              (Client.mkAuthScope None Client.empty_object jane "")
              empty_world)) =
  Client.mkRoot (Client.Object (Doc (document_of jane)) undefined) false
    "/profile" [].
Proof.
  destruct (client_register_outcome
              (Client.mkRoot Client.Null false "/login" [])
              (Client.mkAuthScope None Client.empty_object jane "")
              empty_world)
    as (r' & s' & w' & E & _ & _ & _ & H).
  rewrite E. simpl.
  destruct (H eq_refl ltac:(intros d [])) as [-> _].
  reflexivity.
Defined.

(** ** Controllers and sessions *)




Lemma auth_controller_keeps (r : Client.Root) :
  Client.currentUser (fst (Client.AuthController r)) = Client.currentUser r /\
  Client.path (fst (Client.AuthController r)) = Client.path r.
Proof.
  unfold Client.AuthController.
  destruct (Client.logoutFlag r) eqn:Hf; simpl; rewrite ?Hf; simpl;
    destruct (Client.truthy_user (Client.currentUser r)); simpl; auto.
Qed.

Lemma client_login_session
  (r : Client.Root) (s : Client.AuthScope) (w : World) :
  users (snd (Client.login r s w)) = users w /\
  (fst (fst (Client.login r s w)) = r \/
   exists d, In d (users w) /\
     fst (fst (Client.login r s w)) =
       Client.location_path "/profile"
         (Client.set_currentUser (Client.Object (Doc d) undefined) r)).
Proof.
  unfold Client.login, Client.post_api_login. rewrite login_unfold. simpl.
  destruct (falsy (Body.username (Client.loginUser s))
            || falsy (Body.password (Client.loginUser s))); [auto|].
  destruct (find_by_username (users w) (Body.username (Client.loginUser s)))
    as [d|] eqn:Hf; [|auto].
  destruct (strict_eq (User.password d) (Body.password (Client.loginUser s)));
    simpl; [|auto].
  split; [reflexivity|]. right. exists d. split; [|reflexivity].
  now apply find_by_username_Some in Hf.
Qed.

Lemma client_register_session
  (r : Client.Root) (s : Client.AuthScope) (w : World) :
  (users (snd (Client.register r s w)) = users w /\
   fst (fst (Client.register r s w)) = r) \/
  exists d,
    users (snd (Client.register r s w)) = users w ++ [d] /\
    fst (fst (Client.register r s w)) =
      Client.location_path "/profile"
        (Client.set_currentUser (Client.Object (Doc d) undefined) r).
Proof.
  unfold Client.register, Client.post_api_register.
  destruct (falsy (Body.username (Client.newUser s))
            || falsy (Body.password (Client.newUser s))
            || falsy (Body.firstName (Client.newUser s))
            || falsy (Body.lastName (Client.newUser s))
            || falsy (Body.email (Client.newUser s))
            || falsy (Body.phone (Client.newUser s))); [auto|].
  rewrite register_unfold.
  destruct (first_failure (Client.newUser s)) as [c|]; [simpl; auto|].
  destruct (find_by_username (users w) (Body.username (Client.newUser s)));
    simpl; [auto|].
  right. eexists. split; reflexivity.
Qed.

Lemma handle_keeps_documents (rq : Request) (w : World) (d : User.t) :
  In d (users w) -> In d (users (snd (handle rq w))).
Proof.
  intros Hd. destruct (handle_effect rq w) as (r & w' & E & H).
  rewrite E. simpl. destruct H as [-> | (b & _ & _ & _ & _ & ->)];
    [exact Hd | apply in_or_app; now left].
Qed.

Lemma step_consistent (e : Client.Event) (p : Client.Page) :
  Client.consistent p -> Client.consistent (Client.step e p).
Proof.
  unfold Client.consistent. intros [Hu Hp].
  destruct e as [| | |b|b| | | | |rq]; simpl.
  - (* RunMain *)
    unfold Client.MainController. simpl.
    destruct Hu as [H | (d & st & H & Hd)]; rewrite H; simpl;
      (split; [|exact Hp]); [now left | right; eauto].
  - (* RunAuth *)
    pose proof (auth_controller_keeps (Client.root p)) as [Hc Hpa].
    destruct (Client.AuthController (Client.root p)) as [r' s'].
    simpl in *. now rewrite Hc, Hpa.
  - (* RunProfile *)
    unfold Client.ProfileController.
    destruct Hu as [H | (d & st & H & Hd)]; rewrite H; simpl; rewrite ?H;
      (split; [|try exact Hp; reflexivity]); [now left | right; eauto].
  - auto.
  - auto.
  - (* ClickLogin *)
    pose proof (client_login_session (Client.root p) (Client.auth p)
                  (Client.server p)) as [Hw Hr].
    destruct (Client.login (Client.root p) (Client.auth p) (Client.server p))
      as [[r' s'] w']. simpl in *. rewrite Hw.
    destruct Hr as [-> | (d & Hd & ->)]; [auto|]. simpl.
    split; [right; eauto | reflexivity].
  - (* ClickRegister *)
    pose proof (client_register_session (Client.root p) (Client.auth p)
                  (Client.server p)) as Hr.
    destruct (Client.register (Client.root p) (Client.auth p)
                (Client.server p)) as [[r' s'] w']. simpl in *.
    destruct Hr as [[-> ->] | (d & -> & ->)]; [auto|]. simpl.
    split; [|reflexivity].
    right. exists d, undefined. split; [reflexivity|].
    apply in_or_app. right. now left.
  - (* ClickProfile *)
    unfold Client.checkProfileAccess.
    destruct (Client.isLoggedIn (Client.root p)); simpl; auto.
  - (* ClickLogout *)
    auto.
  - (* Remote *)
    split; [|exact Hp].
    destruct Hu as [H | (d & st & H & Hd)]; [now left | right].
    exists d, st. split; [exact H|]. now apply handle_keeps_documents.
Qed.

(** X10.  Once [MainController] has run on a freshly loaded page, every
    page reached by any sequence of events (controllers starting, typing,
    clicks, requests of other clients) has as current user [null] or a
    document of the server's collection, and a location that is a route of
    the table; on such a page the test of [isLoggedIn] and the truthiness
    test of the other controllers agree. *)
Theorem pages_stay_consistent :
  (forall (e : Client.Event) (p : Client.Page),
      Client.consistent p -> Client.consistent (Client.step e p)) /\
  (forall (es : list Client.Event) (w : World),
      Client.consistent (Client.run (Client.RunMain :: es) (Client.fresh w))) /\
  (forall p : Client.Page,
      Client.consistent p ->
      Client.isLoggedIn (Client.root p) =
      Client.truthy_user (Client.currentUser (Client.root p))).
Proof.
  split; [exact step_consistent|]. split.
  - intros es w.
    assert (Hall : forall es p, Client.consistent p ->
                     Client.consistent (Client.run es p)).
    { clear. induction es as [|e es IH]; intros p Hp; simpl; [exact Hp|].
      apply IH. now apply step_consistent. }
    simpl. apply Hall. split; [now left | reflexivity].
  - intros p [[H | (d & st & H & _)] _]; unfold Client.isLoggedIn;
      rewrite H; reflexivity.
Qed.

(** Jane Doe registers through the form on a fresh page; another client
    then tries to register her username. *)
Lemma pages_stay_consistent_jane :
  Client.consistent
    (Client.run
       [Client.RunMain; Client.RunAuth; Client.TypeRegister jane;
        Client.ClickRegister; Client.RunProfile;
        Client.Remote (Register (set Kpassword (str "other") jane))]
       (Client.fresh empty_world)).
Proof.
  apply (proj1 (proj2 pages_stay_consistent)).
Defined.

(** X11.  Registration, logout and login through the forms.  From any
    page, a body that passes the server's checks and whose username is free
    registers and opens a session; after logging out and logging in again
    with the same username and password, the profile shown is the registered
    document, marked an active member, at /profile. *)
Theorem client_register_logout_login (p : Client.Page) (b : Body.t) :
  passes_validation b = true ->
  no_record (users (Client.server p)) (Body.username b) ->
  let q :=
    Client.run
      [Client.RunAuth; Client.TypeRegister b; Client.ClickRegister;
       Client.RunProfile; Client.ClickLogout;
       Client.RunAuth;
       Client.TypeLogin (credentials (Body.username b) (Body.password b));
       Client.ClickLogin; Client.RunProfile] p in
  Client.profile (Client.prof q) =
    Client.Object (Doc (document_of b)) (str "Active Member") /\
  Client.currentUser (Client.root q) = Client.profile (Client.prof q) /\
  Client.path (Client.root q) = "/profile" /\
  Client.errorMessage (Client.auth q) = "" /\
  users (Client.server q) = users (Client.server p) ++ [document_of b].
Proof.
  intros Hv Hn. apply find_by_username_None in Hn.
  pose proof (passes_validation_fields b Hv)
    as (Hfn & _ & Hln & _ & Hem & _ & Hph & _ & Hun & Hpw).
  destruct p as [[cu lf pa al] a pr w]. simpl in Hn.
  assert (Hreg : forall w0, users w0 = users w ->
            register b w0 =
              (Ok (res_status_json 201 (Doc (document_of b))),
               {| users := users w ++ [document_of b];
                  oplog := (oplog w0 ++ [OpFindOne (Body.username b)])
                             ++ [OpSave (document_of b)] |})).
  { intros w0 E. rewrite <- E. apply register_created; [exact Hv|].
    now rewrite E. }
  assert (Hlog : forall w1, users w1 = users w ++ [document_of b] ->
            login (credentials (Body.username b) (Body.password b)) w1 =
              (Ok (res_json (Doc (document_of b))),
               {| users := users w1;
                  oplog := oplog w1 ++ [OpFindOne (Body.username b)] |})).
  { intros w1 E. rewrite login_unfold. simpl. unfold falsy.
    rewrite Hun, Hpw. simpl. rewrite E.
    pose proof (find_by_username_new (users w) (document_of b) Hn) as Hf.
    cbn [User.username document_of] in Hf. rewrite Hf. simpl.
    now rewrite (proj2 (strict_eq_true _ _) eq_refl). }
  destruct lf, cu; simpl;
    unfold Client.register, Client.post_api_register; simpl;
    unfold falsy; rewrite Hfn, Hln, Hem, Hph, Hun, Hpw; simpl;
    rewrite (Hreg w eq_refl); simpl;
    unfold Client.login, Client.post_api_login; simpl;
    unfold falsy; rewrite Hun, Hpw; simpl;
    rewrite Hlog by reflexivity; simpl;
    repeat split; reflexivity.
Qed.

(** Jane Doe on a fresh page with an empty store. *)
Lemma client_register_logout_login_jane :
  Client.profile
    (Client.prof
       (Client.run
          [Client.RunAuth; Client.TypeRegister jane; Client.ClickRegister;
           Client.RunProfile; Client.ClickLogout;
           Client.RunAuth;
           Client.TypeLogin (credentials (str "jdoe") (str "pw1"));
           Client.ClickLogin; Client.RunProfile]
          (Client.fresh empty_world))) =
  Client.Object (Doc (document_of jane)) (str "Active Member").
Proof.
  apply (client_register_logout_login (Client.fresh empty_world) jane).
  - reflexivity.
  - intros d [].
Defined.
